(** * AI-Finance-Platform: server actions, verified against their specification

    A shallow embedding of [actions/transaction.js] and [lib/checkUser.js].

    Conventions of the embedding.
    - JavaScript strings are [string]s holding the UTF-8 bytes of the text.
    - Money (Prisma [Decimal] columns, and the JavaScript numbers the actions
      compute with) is an exact integer number of minor currency units, so
      500.00 is [50000]; IEEE-754 rounding is outside the model.
    - A [Date] is its ECMAScript time value (milliseconds since the epoch),
      [None] standing for an Invalid Date.  The host's local time zone is
      taken to be UTC, as on the hosts server actions are deployed to.
    - The relational store reached through Prisma is an explicit [Store];
      every action is a function from the store (and from what the external
      collaborators answered) to an outcome and the store left behind.
    - A number parsed from text (JSON, [Number(...)]) is an exact rational in
      lowest terms, next to [NaN] and the two infinities.
    - What the external collaborators answered is an argument of the action:
      the user id of [auth()], the decision of the rate limiter, the signed-in
      user of [currentUser()], the reply of the generative model, and the id
      the database gives a new row.  [revalidatePath] and [console.error]
      leave no trace in the store and are not modelled. *)

From Stdlib Require Import ZArith QArith Lia List Bool Ascii String.
From stdpp Require Import base option gmap strings list fin_maps sorting.

Local Open Scope Z_scope.

Set Warnings "-register-all".

(** ** ECMAScript built-ins the actions call *)

Module ES.

(** *** Time values (ECMA-262, "Date objects") *)

Definition msPerDay : Z := 86400000.

Definition Day (t : Z) : Z := t / msPerDay.

Definition TimeWithinDay (t : Z) : Z := t mod msPerDay.

Definition DaysInYear (y : Z) : Z :=
  if negb (y mod 4 =? 0) then 365
  else if negb (y mod 100 =? 0) then 366
  else if negb (y mod 400 =? 0) then 365
  else 366.

Definition DayFromYear (y : Z) : Z :=
  365 * (y - 1970) + (y - 1969) / 4 - (y - 1901) / 100 + (y - 1601) / 400.

Definition TimeFromYear (y : Z) : Z := msPerDay * DayFromYear y.

(** The year holding day number [d]: the largest [y] with
    [DayFromYear y <= d].  It is found from the mean length of a year and
    adjusted by one when the estimate falls on the wrong side of a new year. *)
Definition YearFromDay (d : Z) : Z :=
  let y0 := 1970 + (d * 400) / 146097 in
  if DayFromYear (y0 + 1) <=? d then y0 + 1
  else if DayFromYear y0 <=? d then y0
  else y0 - 1.

Definition YearFromTime (t : Z) : Z := YearFromDay (Day t).

Definition InLeapYear (t : Z) : Z :=
  if DaysInYear (YearFromTime t) =? 366 then 1 else 0.

Definition DayWithinYear (t : Z) : Z := Day t - DayFromYear (YearFromTime t).

Definition MonthFromTime (t : Z) : Z :=
  let d := DayWithinYear t in
  let l := InLeapYear t in
  if d <? 31 then 0
  else if d <? 59 + l then 1
  else if d <? 90 + l then 2
  else if d <? 120 + l then 3
  else if d <? 151 + l then 4
  else if d <? 181 + l then 5
  else if d <? 212 + l then 6
  else if d <? 243 + l then 7
  else if d <? 273 + l then 8
  else if d <? 304 + l then 9
  else if d <? 334 + l then 10
  else 11.

Definition DateFromTime (t : Z) : Z :=
  let d := DayWithinYear t in
  let l := InLeapYear t in
  match MonthFromTime t with
  | 0 => d + 1
  | 1 => d - 30
  | 2 => d - 58 - l
  | 3 => d - 89 - l
  | 4 => d - 119 - l
  | 5 => d - 150 - l
  | 6 => d - 180 - l
  | 7 => d - 211 - l
  | 8 => d - 242 - l
  | 9 => d - 272 - l
  | 10 => d - 303 - l
  | _ => d - 333 - l
  end.

(** Days of the year that precede month [m] (0 = January). *)
Definition DaysBeforeMonth (y m : Z) : Z :=
  let l := if DaysInYear y =? 366 then 1 else 0 in
  match m with
  | 0 => 0
  | 1 => 31
  | 2 => 59 + l
  | 3 => 90 + l
  | 4 => 120 + l
  | 5 => 151 + l
  | 6 => 181 + l
  | 7 => 212 + l
  | 8 => 243 + l
  | 9 => 273 + l
  | 10 => 304 + l
  | _ => 334 + l
  end.

Definition DaysInMonth (y m : Z) : Z :=
  match m with
  | 1 => if DaysInYear y =? 366 then 29 else 28
  | 3 | 5 | 8 | 10 => 30
  | _ => 31
  end.

(** [MakeDay(year, month, date)]: the day number of the first day of the
    month, plus [date - 1]; [month] is first reduced into 0..11, carrying
    into the year. *)
Definition MakeDay (year month date : Z) : Z :=
  let ym := year + month / 12 in
  let mn := month mod 12 in
  DayFromYear ym + DaysBeforeMonth ym mn + date - 1.

Definition MakeDate (day time : Z) : Z := day * msPerDay + time.

Definition maxTime : Z := 8640000000000000.

Definition TimeClip (t : Z) : option Z :=
  if Z.abs t <=? maxTime then Some t else None.

(** The local time zone adjustment of the host. *)
Definition LocalTZA : Z := 0.
Definition LocalTime (t : Z) : Z := t + LocalTZA.
Definition UTC (t : Z) : Z := t - LocalTZA.

(** A [Date] object is its time value; [None] is an Invalid Date. *)
Definition Date : Type := option Z.

Definition getMonth (d : Date) : option Z :=
  t ← d; Some (MonthFromTime (LocalTime t)).

Definition getFullYear (d : Date) : option Z :=
  t ← d; Some (YearFromTime (LocalTime t)).

(** [d.setMonth(m)]; a [NaN] argument is [None]. *)
Definition setMonth (d : Date) (m : option Z) : Date :=
  t ← d; m ← m;
  let lt := LocalTime t in
  TimeClip (UTC (MakeDate (MakeDay (YearFromTime lt) m (DateFromTime lt))
                          (TimeWithinDay lt))).

(** [d.setFullYear(y)]. *)
Definition setFullYear (d : Date) (y : option Z) : Date :=
  t ← d; y ← y;
  let lt := LocalTime t in
  TimeClip (UTC (MakeDate (MakeDay y (MonthFromTime lt) (DateFromTime lt))
                          (TimeWithinDay lt))).

(** *** Strings *)

Definition code (c : ascii) : Z := Z.of_N (N_of_ascii c).

Definition chr (n : Z) : ascii := ascii_of_N (Z.to_N n).

(** The double quote. *)
Definition dquote : ascii := chr 34.

Definition isChar (x c : ascii) : bool := Ascii.eqb x c.
Arguments isChar x%_char c%_char : simpl never.

Fixpoint rev_onto (s acc : string) : string :=
  match s with
  | EmptyString => acc
  | String c r => rev_onto r (String c acc)
  end.

Definition rev_string (s : string) : string := rev_onto s EmptyString.

(** The code points [String.prototype.trim] removes (WhiteSpace and
    LineTerminator), as the one, two or three bytes that encode them. *)
Definition ws1 (c : ascii) : bool :=
  let n := code c in (9 <=? n) && (n <=? 13) || (n =? 32).

Definition ws2 (c1 c2 : ascii) : bool :=
  (code c1 =? 194) && (code c2 =? 160).

Definition ws3 (c1 c2 c3 : ascii) : bool :=
  let a := code c1 in let b := code c2 in let c := code c3 in
  (a =? 225) && (b =? 154) && (c =? 128)
  || (a =? 226) && (b =? 128)
     && ((128 <=? c) && (c <=? 138) || (c =? 168) || (c =? 169) || (c =? 175))
  || (a =? 226) && (b =? 129) && (c =? 159)
  || (a =? 227) && (b =? 128) && (c =? 128)
  || (a =? 239) && (b =? 187) && (c =? 191).

Fixpoint trimStart (s : string) : string :=
  match s with
  | EmptyString => s
  | String c1 s1 =>
      if ws1 c1 then trimStart s1
      else match s1 with
           | EmptyString => s
           | String c2 s2 =>
               if ws2 c1 c2 then trimStart s2
               else match s2 with
                    | EmptyString => s
                    | String c3 s3 => if ws3 c1 c2 c3 then trimStart s3 else s
                    end
           end
  end.

(** The same scan over the reversed text, the bytes of a code point coming
    last byte first. *)
Fixpoint trimStart_rev (s : string) : string :=
  match s with
  | EmptyString => s
  | String c1 s1 =>
      if ws1 c1 then trimStart_rev s1
      else match s1 with
           | EmptyString => s
           | String c2 s2 =>
               if ws2 c2 c1 then trimStart_rev s2
               else match s2 with
                    | EmptyString => s
                    | String c3 s3 =>
                        if ws3 c3 c2 c1 then trimStart_rev s3 else s
                    end
           end
  end.

Definition trimEnd (s : string) : string :=
  rev_string (trimStart_rev (rev_string s)).

Definition trim (s : string) : string := trimEnd (trimStart s).

(** [s.replace(/```(?:json)?/g, "")]: every run of three backticks goes,
    together with a [json] that follows it. *)
Fixpoint removeFences (s : string) : string :=
  match s with
  | EmptyString => EmptyString
  | String c1 s1 =>
      match s1 with
      | String c2 (String c3 s3) =>
          if isChar "`" c1 && isChar "`" c2 && isChar "`" c3 then
            match s3 with
            | String j (String s_ (String o (String n s7))) =>
                if isChar "j" j && isChar "s" s_ && isChar "o" o && isChar "n" n
                then removeFences s7 else removeFences s3
            | _ => removeFences s3
            end
          else String c1 (removeFences s1)
      | _ => String c1 (removeFences s1)
      end
  end.

(** [Buffer.from(bytes).toString("base64")]. *)
Definition base64Alphabet : string :=
  "ABCDEFGHIJKLMNOPQRSTUVWXYZabcdefghijklmnopqrstuvwxyz0123456789+/".

Definition base64Char (n : Z) : ascii :=
  match String.get (Z.to_nat n) base64Alphabet with
  | Some c => c
  | None => "="%char
  end.

Definition byteZ (b : Byte.byte) : Z := Z.of_N (Byte.to_N b).

Fixpoint base64 (l : list Byte.byte) : string :=
  match l with
  | [] => EmptyString
  | [a] =>
      let n := byteZ a * 65536 in
      String (base64Char (n / 262144))
        (String (base64Char (n / 4096 mod 64)) "==")
  | [a; b] =>
      let n := byteZ a * 65536 + byteZ b * 256 in
      String (base64Char (n / 262144))
        (String (base64Char (n / 4096 mod 64))
           (String (base64Char (n / 64 mod 64)) "="))
  | a :: b :: c :: r =>
      let n := byteZ a * 65536 + byteZ b * 256 + byteZ c in
      String (base64Char (n / 262144))
        (String (base64Char (n / 4096 mod 64))
           (String (base64Char (n / 64 mod 64))
              (String (base64Char (n mod 64)) (base64 r))))
  end.

(** *** Numbers and values *)

(** A number is [NaN], an infinity, or an exact rational in lowest terms. *)
Inductive JSNumber : Type :=
  | NaN
  | Infinity (negative : bool)
  | Num (q : Q).

Inductive JSValue : Type :=
  | JUndefined
  | JNull
  | JBool (b : bool)
  | JNumber (n : JSNumber)
  | JString (s : string)
  | JArray (l : list JSValue)
  | JObject (members : list (string * JSValue)).

(** [m * 10^e]. *)
Definition decimal (m e : Z) : JSNumber :=
  if 0 <=? e then Num (inject_Z (m * 10 ^ e))
  else Num (Qred (m # Z.to_pos (10 ^ (- e)))).

Definition isDigit (c : ascii) : bool := (48 <=? code c) && (code c <=? 57).

Definition digitValue (base : Z) (c : ascii) : option Z :=
  let n := code c in
  let v := if (48 <=? n) && (n <=? 57) then n - 48
           else if (97 <=? n) && (n <=? 102) then n - 87
           else if (65 <=? n) && (n <=? 70) then n - 55
           else 16 in
  if v <? base then Some v else None.

(** The longest run of digits in [base] at the head of [s]: its value (on
    top of [acc]), its length (on top of [n]) and what follows it. *)
Fixpoint digits (base : Z) (s : string) (acc n : Z) : Z * Z * string :=
  match s with
  | EmptyString => (acc, n, s)
  | String c r =>
      match digitValue base c with
      | Some v => digits base r (acc * base + v) (n + 1)
      | None => (acc, n, s)
      end
  end.

(** An exponent part [e], [e+] or [e-] followed by digits; [Some (0, s)]
    when [s] does not start with [e] or [E]. *)
Definition exponentPart (s : string) : option (Z * string) :=
  match s with
  | String e r =>
      if isChar "e" e || isChar "E" e then
        let '(neg, r1) :=
          match r with
          | String sg r' =>
              if isChar "-" sg then (true, r')
              else if isChar "+" sg then (false, r') else (false, r)
          | EmptyString => (false, r)
          end in
        let '(v, n, r2) := digits 10 r1 0 0 in
        if n =? 0 then None else Some (if neg then - v else v, r2)
      else Some (0, s)
  | EmptyString => Some (0, s)
  end.

Fixpoint strip_prefix (p s : string) : option string :=
  match p with
  | EmptyString => Some s
  | String a p' =>
      match s with
      | String b s' => if Ascii.eqb a b then strip_prefix p' s' else None
      | EmptyString => None
      end
  end.

Definition isEmpty (s : string) : bool :=
  match s with EmptyString => true | _ => false end.

(** [StrDecimalLiteral] without its sign, to the end of the text. *)
Definition unsignedDecimal (neg : bool) (s : string) : JSNumber :=
  match strip_prefix "Infinity" s with
  | Some r => if isEmpty r then Infinity neg else NaN
  | None =>
      let '(i, ni, r1) := digits 10 s 0 0 in
      let '(m, nf, r2) :=
        match r1 with
        | String dot r' =>
            if isChar "." dot then digits 10 r' i 0 else (i, 0, r1)
        | EmptyString => (i, 0, r1)
        end in
      if ni + nf =? 0 then NaN
      else match exponentPart r2 with
           | Some (e, r3) =>
               if isEmpty r3 then decimal (if neg then - m else m) (e - nf)
               else NaN
           | None => NaN
           end
  end.

Definition nonDecimal (base : Z) (s : string) : JSNumber :=
  let '(v, n, r) := digits base s 0 0 in
  if (0 <? n) && isEmpty r then Num (inject_Z v) else NaN.

(** [StringToNumber]. *)
Definition StringToNumber (s : string) : JSNumber :=
  match trim s with
  | EmptyString => Num 0
  | String c r as t =>
      if isChar "-" c then unsignedDecimal true r
      else if isChar "+" c then unsignedDecimal false r
      else match r with
           | String x r' =>
               if isChar "0" c && (isChar "x" x || isChar "X" x)
               then nonDecimal 16 r'
               else if isChar "0" c && (isChar "o" x || isChar "O" x)
               then nonDecimal 8 r'
               else if isChar "0" c && (isChar "b" x || isChar "B" x)
               then nonDecimal 2 r'
               else unsignedDecimal false t
           | EmptyString => unsignedDecimal false t
           end
  end.

(** [Number(v)].  An array goes through its string form: empty text for no
    element, the element's own text for one, text with a comma (never a
    number) for more. *)
Fixpoint ToNumber (v : JSValue) : JSNumber :=
  match v with
  | JUndefined => NaN
  | JNull => Num 0
  | JBool b => Num (if b then 1 else 0)
  | JNumber n => n
  | JString s => StringToNumber s
  | JArray l =>
      match l with
      | [] => Num 0
      | [x] =>
          match x with
          | JUndefined | JNull => Num 0
          | JBool _ | JObject _ => NaN
          | JNumber _ | JString _ | JArray _ => ToNumber x
          end
      | _ => NaN
      end
  | JObject _ => NaN
  end.

Definition isZero (q : Q) : bool := Qnum q =? 0.

(** [ToBoolean]. *)
Definition ToBoolean (v : JSValue) : bool :=
  match v with
  | JUndefined | JNull => false
  | JBool b => b
  | JNumber NaN => false
  | JNumber (Infinity _) => true
  | JNumber (Num q) => negb (isZero q)
  | JString s => negb (isEmpty s)
  | JArray _ | JObject _ => true
  end.

(** [v ?? d]. *)
Definition nullish (v d : JSValue) : JSValue :=
  match v with
  | JUndefined | JNull => d
  | _ => v
  end.

(** The value bound to [k] by the last member named [k]. *)
Fixpoint lookupMember (k : string) (l : list (string * JSValue))
  : option JSValue :=
  match l with
  | [] => None
  | (k', v) :: r =>
      match lookupMember k r with
      | Some w => Some w
      | None => if String.eqb k k' then Some v else None
      end
  end.

(** [v.k] for a property name [k] that no built-in prototype defines (such
    are all the names the actions read): [None] is the [TypeError] of
    reading a property of [null] or [undefined]. *)
Definition getProp (v : JSValue) (k : string) : option JSValue :=
  match v with
  | JUndefined | JNull => None
  | JObject l => Some (default JUndefined (lookupMember k l))
  | _ => Some JUndefined
  end.

(** *** [JSON.parse] *)

Fixpoint skip_ws (s : string) : string :=
  match s with
  | EmptyString => s
  | String c r =>
      if isChar " " c || isChar "009" c || isChar "010" c || isChar "013" c
      then skip_ws r else s
  end.

(** A character of a JSON string: a byte of the text as it stands, or the
    UTF-16 code unit an escape names. *)
Inductive StringUnit : Type :=
  | Raw (c : ascii)
  | Escaped (u : Z).

Definition simpleEscape (c : ascii) : option Z :=
  let n := code c in
  if (n =? 34) || (n =? 92) || (n =? 47) then Some n
  else if n =? 98 then Some 8
  else if n =? 102 then Some 12
  else if n =? 110 then Some 10
  else if n =? 114 then Some 13
  else if n =? 116 then Some 9
  else None.

Definition hex4 (a b c d : ascii) : option Z :=
  x ← digitValue 16 a; y ← digitValue 16 b;
  z ← digitValue 16 c; w ← digitValue 16 d;
  Some (((x * 16 + y) * 16 + z) * 16 + w).

(** The characters of a string up to its closing quote, and what follows
    the quote. *)
Fixpoint stringChars (s : string) : option (list StringUnit * string) :=
  match s with
  | EmptyString => None
  | String c r =>
      if isChar dquote c then Some ([], r)
      else if isChar "\" c then
        match r with
        | EmptyString => None
        | String e r1 =>
            match simpleEscape e with
            | Some u =>
                match stringChars r1 with
                | Some (l, rest) => Some (Escaped u :: l, rest)
                | None => None
                end
            | None =>
                if isChar "u" e then
                  match r1 with
                  | String h1 (String h2 (String h3 (String h4 r2))) =>
                      match hex4 h1 h2 h3 h4 with
                      | Some u =>
                          match stringChars r2 with
                          | Some (l, rest) => Some (Escaped u :: l, rest)
                          | None => None
                          end
                      | None => None
                      end
                  | _ => None
                  end
                else None
            end
        end
      else if code c <? 32 then None
      else match stringChars r with
           | Some (l, rest) => Some (Raw c :: l, rest)
           | None => None
           end
  end.

(** UTF-8 of a code point. *)
Definition utf8 (cp : Z) : string :=
  if cp <? 128 then String (chr cp) EmptyString
  else if cp <? 2048 then
    String (chr (192 + cp / 64)) (String (chr (128 + cp mod 64)) EmptyString)
  else if cp <? 65536 then
    String (chr (224 + cp / 4096))
      (String (chr (128 + cp / 64 mod 64))
         (String (chr (128 + cp mod 64)) EmptyString))
  else
    String (chr (240 + cp / 262144))
      (String (chr (128 + cp / 4096 mod 64))
         (String (chr (128 + cp / 64 mod 64))
            (String (chr (128 + cp mod 64)) EmptyString))).

Definition isHighSurrogate (u : Z) : bool := (55296 <=? u) && (u <=? 56319).
Definition isLowSurrogate (u : Z) : bool := (56320 <=? u) && (u <=? 57343).

(** The text of a string: an escaped surrogate pair is one code point. *)
Fixpoint stringText (l : list StringUnit) : string :=
  match l with
  | [] => EmptyString
  | Raw c :: r => String c (stringText r)
  | Escaped u :: r =>
      match r with
      | Escaped v :: r' =>
          if isHighSurrogate u && isLowSurrogate v
          then utf8 (65536 + (u - 55296) * 1024 + (v - 56320))
                 ++ stringText r'
          else utf8 u ++ stringText r
      | _ => utf8 u ++ stringText r
      end
  end.

Inductive Parse (A : Type) : Type :=
  | Parsed (a : A) (rest : string)
  | SyntaxError
  | OutOfFuel.
Arguments Parsed {A} a rest.
Arguments SyntaxError {A}.
Arguments OutOfFuel {A}.

(** A JSON number at the head of [s]. *)
Definition jsonNumber (s : string) : Parse JSValue :=
  let '(neg, s1) :=
    match s with
    | String c r => if isChar "-" c then (true, r) else (false, s)
    | EmptyString => (false, s)
    end in
  match s1 with
  | EmptyString => SyntaxError
  | String c r =>
      if negb (isDigit c) then SyntaxError
      else
        let '(i, r1) :=
          if isChar "0" c then (0, r)
          else let '(v, _, r') := digits 10 s1 0 0 in (v, r') in
        let frac :=
          match r1 with
          | String dot r' =>
              if isChar "." dot then
                let '(m, nf, r2) := digits 10 r' i 0 in
                if nf =? 0 then None else Some (m, nf, r2)
              else Some (i, 0, r1)
          | EmptyString => Some (i, 0, r1)
          end in
        match frac with
        | None => SyntaxError
        | Some (m, nf, r2) =>
            match exponentPart r2 with
            | Some (e, r3) =>
                Parsed (JNumber (decimal (if neg then - m else m) (e - nf))) r3
            | None => SyntaxError
            end
        end
  end.

Definition literal (p : string) (v : JSValue) (s : string) : Parse JSValue :=
  match strip_prefix p s with
  | Some r => Parsed v r
  | None => SyntaxError
  end.

(** A JSON value at the head of [s]; the elements of an array after its
    bracket; the members of an object after its brace.  Each call spends one
    unit of fuel; [JSON_parse] supplies more than a text can use. *)
Fixpoint jsonValue (fuel : nat) (s : string) : Parse JSValue :=
  match fuel with
  | O => OutOfFuel
  | S f =>
      match s with
      | EmptyString => SyntaxError
      | String c r =>
          if isChar "{" c then
            match skip_ws r with
            | EmptyString => SyntaxError
            | String c' r' as r0 =>
                if isChar "}" c' then Parsed (JObject []) r'
                else match jsonMembers f [] r0 with
                     | Parsed l rest => Parsed (JObject l) rest
                     | SyntaxError => SyntaxError
                     | OutOfFuel => OutOfFuel
                     end
            end
          else if isChar "[" c then
            match skip_ws r with
            | EmptyString => SyntaxError
            | String c' r' as r0 =>
                if isChar "]" c' then Parsed (JArray []) r'
                else match jsonElements f [] r0 with
                     | Parsed l rest => Parsed (JArray l) rest
                     | SyntaxError => SyntaxError
                     | OutOfFuel => OutOfFuel
                     end
            end
          else if isChar dquote c then
            match stringChars r with
            | Some (l, rest) => Parsed (JString (stringText l)) rest
            | None => SyntaxError
            end
          else if isChar "t" c then literal "true" (JBool true) s
          else if isChar "f" c then literal "false" (JBool false) s
          else if isChar "n" c then literal "null" JNull s
          else jsonNumber s
      end
  end
with jsonElements (fuel : nat) (acc : list JSValue) (s : string)
  : Parse (list JSValue) :=
  match fuel with
  | O => OutOfFuel
  | S f =>
      match jsonValue f (skip_ws s) with
      | Parsed v r =>
          match skip_ws r with
          | EmptyString => SyntaxError
          | String c r' =>
              if isChar "," c then jsonElements f (v :: acc) r'
              else if isChar "]" c then Parsed (List.rev (v :: acc)) r'
              else SyntaxError
          end
      | SyntaxError => SyntaxError
      | OutOfFuel => OutOfFuel
      end
  end
with jsonMembers (fuel : nat) (acc : list (string * JSValue)) (s : string)
  : Parse (list (string * JSValue)) :=
  match fuel with
  | O => OutOfFuel
  | S f =>
      match skip_ws s with
      | EmptyString => SyntaxError
      | String q r =>
          if negb (isChar dquote q) then SyntaxError
          else
            match stringChars r with
            | None => SyntaxError
            | Some (k, r1) =>
                match skip_ws r1 with
                | EmptyString => SyntaxError
                | String colon r2 =>
                    if negb (isChar ":" colon) then SyntaxError
                    else
                      match jsonValue f (skip_ws r2) with
                      | Parsed v r3 =>
                          match skip_ws r3 with
                          | EmptyString => SyntaxError
                          | String c r4 =>
                              if isChar "," c
                              then jsonMembers f ((stringText k, v) :: acc) r4
                              else if isChar "}" c
                              then Parsed (List.rev ((stringText k, v) :: acc)) r4
                              else SyntaxError
                          end
                      | SyntaxError => SyntaxError
                      | OutOfFuel => OutOfFuel
                      end
                end
            end
      end
  end.

Definition parseFuel (s : string) : nat := S (2 * String.length s).

(** [JSON.parse(s)]; [None] is its [SyntaxError]. *)
Definition JSON_parse (s : string) : option JSValue :=
  let t := skip_ws s in
  match jsonValue (parseFuel t) t with
  | Parsed v r => if isEmpty (skip_ws r) then Some v else None
  | _ => None
  end.

(** *** [new Date(v)] *)

(** What [new Date(v)] is for a value that is not itself a [Date]: a time
    value, or, for the texts and objects this development does not read, the
    construction left as it is. *)
Inductive DateResult : Type :=
  | ADate (d : Date)
  | DateOf (v : JSValue).

Definition twoDigits (a b : ascii) : option Z :=
  if isDigit a && isDigit b then Some ((code a - 48) * 10 + (code b - 48))
  else None.

(** The date-only form [YYYY-MM-DD] of the Date Time String Format, for a
    day that exists: midnight UTC of that day. *)
Definition isoDate (s : string) : option Z :=
  match s with
  | String y1 (String y2 (String y3 (String y4 (String d1
      (String m1 (String m2 (String d2
        (String t1 (String t2 EmptyString))))))))) =>
      yh ← twoDigits y1 y2; yl ← twoDigits y3 y4;
      m ← twoDigits m1 m2; d ← twoDigits t1 t2;
      let y := yh * 100 + yl in
      if isChar "-" d1 && isChar "-" d2
         && (1 <=? m) && (m <=? 12)
         && (1 <=? d) && (d <=? DaysInMonth y (m - 1))
      then Some (MakeDate (MakeDay y (m - 1) d) 0)
      else None
  | _ => None
  end.

Definition truncate (q : Q) : Z := Z.quot (Qnum q) (Zpos (Qden q)).

Definition newDate (v : JSValue) : DateResult :=
  match v with
  | JString s =>
      match isoDate s with
      | Some t => ADate (TimeClip t)
      | None => DateOf v
      end
  | JArray _ | JObject _ => DateOf v
  | _ =>
      match ToNumber v with
      | Num q => ADate (TimeClip (truncate q))
      | _ => ADate None
      end
  end.

End ES.

Import ES.
Local Open Scope string_scope.

(** ** The store reached through Prisma *)

Inductive TransactionType : Type := INCOME | EXPENSE.

Inductive RecurringInterval : Type := DAILY | WEEKLY | MONTHLY | YEARLY.

(** The [data] object a transaction is created or updated from. *)
Record TransactionData : Type := {
  type : TransactionType;
  amount : Z;
  description : string;
  date : Date;
  category : string;
  accountId : string;
  isRecurring : bool;
  recurringInterval : option RecurringInterval
}.

(** A row of [Transaction], stored under its id: the fields spread from
    [data], the owner, and [nextRecurringDate] ([None] is [null]). *)
Record Transaction : Type := {
  fields : TransactionData;
  transaction_userId : string;
  nextRecurringDate : option Date
}.

(** A row of [Account], stored under its id. *)
Record Account : Type := {
  account_userId : string;
  balance : Z
}.

Record User : Type := {
  user_id : string;
  clerkUserId : string;
  email : string;
  name : string;
  imageUrl : string
}.

(** [User] rows in the order they were created; accounts and transactions by
    id. *)
Record Store : Type := {
  users : list User;
  accounts : gmap string Account;
  transactions : gmap string Transaction
}.

(** ** Actions: an outcome and the store left behind *)

Inductive Result (A : Type) : Type :=
  | Ok (a : A)
  | Error (message : string).
Arguments Ok {A} a.
Arguments Error {A} message.

Definition Action (A : Type) : Type := Store -> Result A * Store.

Definition ret {A} (a : A) : Action A := fun s => (Ok a, s).

Definition throw {A} (message : string) : Action A :=
  fun s => (Error message, s).

Definition bind {A B} (m : Action A) (k : A -> Action B) : Action B :=
  fun s =>
    match m s with
    | (Ok a, s') => k a s'
    | (Error e, s') => (Error e, s')
    end.

Declare Scope action_scope.
Delimit Scope action_scope with action.
Notation "'let*' x ':=' m 'in' k" := (bind m (fun x => k))
  (at level 10, x name, m at level 100, k at level 200) : action_scope.
Notation "m ';;' k" := (bind m (fun _ => k))
  (at level 100, k at level 200, right associativity) : action_scope.

(** [db.$transaction(body)]: the writes of [body] are kept when it returns
    and dropped when it throws. *)
Definition dollar_transaction {A} (body : Action A) : Action A :=
  fun s =>
    match body s with
    | (Ok a, s') => (Ok a, s')
    | (Error e, _) => (Error e, s)
    end.

Definition recordNotFound : string := "Record to update not found.".
Definition uniqueConstraint : string := "Unique constraint failed.".

(** [db.user.findUnique({ where: { clerkUserId } })]. *)
Definition findUser (clerkId : string) (s : Store) : option User :=
  List.find (fun u => String.eqb (clerkUserId u) clerkId) (users s).

Definition user_findUnique (clerkId : string) : Action (option User) :=
  fun s => (Ok (findUser clerkId s), s).

(** [db.account.findUnique({ where: { id, userId } })]. *)
Definition findAccount (id userId : string) (s : Store) : option Account :=
  match accounts s !! id with
  | Some a => if String.eqb (account_userId a) userId then Some a else None
  | None => None
  end.

Definition account_findUnique (id userId : string) : Action (option Account) :=
  fun s => (Ok (findAccount id userId s), s).

(** [db.transaction.findUnique({ where: { id, userId } })]. *)
Definition findTransaction (id userId : string) (s : Store)
  : option Transaction :=
  match transactions s !! id with
  | Some t => if String.eqb (transaction_userId t) userId then Some t else None
  | None => None
  end.

Definition transaction_findUnique (id userId : string)
  : Action (option Transaction) :=
  fun s => (Ok (findTransaction id userId s), s).

Definition setTransaction (id : string) (row : Transaction) (s : Store)
  : Store :=
  {| users := users s;
     accounts := accounts s;
     transactions := <[id := row]> (transactions s) |}.

Definition setAccount (id : string) (row : Account) (s : Store) : Store :=
  {| users := users s;
     accounts := <[id := row]> (accounts s);
     transactions := transactions s |}.

Definition setUsers (l : list User) (s : Store) : Store :=
  {| users := l; accounts := accounts s; transactions := transactions s |}.

(** [tx.transaction.create({ data })]; [id] is the id the database gives the
    new row. *)
Definition transaction_create (id : string) (row : Transaction)
  : Action Transaction :=
  fun s =>
    match transactions s !! id with
    | Some _ => (Error uniqueConstraint, s)
    | None => (Ok row, setTransaction id row s)
    end.

(** [tx.transaction.update({ where: { id, userId }, data })]. *)
Definition transaction_update (id userId : string)
    (data : TransactionData) (next : option Date) : Action Transaction :=
  fun s =>
    match findTransaction id userId s with
    | Some t =>
        let row := {| fields := data;
                      transaction_userId := transaction_userId t;
                      nextRecurringDate := next |} in
        (Ok row, setTransaction id row s)
    | None => (Error recordNotFound, s)
    end.

(** [tx.account.update({ where: { id }, data: { balance } })], the new
    balance given from the old one. *)
Definition account_update (id : string) (f : Z -> Z) : Action Account :=
  fun s =>
    match accounts s !! id with
    | Some a =>
        let row := {| account_userId := account_userId a;
                      balance := f (balance a) |} in
        (Ok row, setAccount id row s)
    | None => (Error recordNotFound, s)
    end.

(** ** [actions/transaction.js] *)

(** [serializeAmount]: the [Decimal] amount of a row as a number, which are
    one and the same here. *)
Definition serializeAmount (obj : Transaction) : Transaction :=
  {| fields := fields obj;
     transaction_userId := transaction_userId obj;
     nextRecurringDate := nextRecurringDate obj |}.

(** [calculateNextRecurringDate(date, interval)]: a copy of [date], moved by
    [setMonth] or [setFullYear] for the two intervals the [switch] names. *)
Definition calculateNextRecurringDate (date : Date)
    (interval : RecurringInterval) : Date :=
  let d := date in
  match interval with
  | MONTHLY => setMonth d (m ← getMonth d; Some (m + 1))
  | YEARLY => setFullYear d (y ← getFullYear d; Some (y + 1))
  | _ => d
  end.

(** What [aj.protect] decided. *)
Inductive Decision : Type :=
  | Allowed
  | Denied (isRateLimit : bool).

(** [!userId] for what [auth()] returned. *)
Definition noUser (userId : option string) : bool :=
  match userId with
  | Some u => isEmpty u
  | None => true
  end.

(** The [nextRecurringDate] both actions store:
    [data.isRecurring && data.recurringInterval
       ? calculateNextRecurringDate(data.date, data.recurringInterval) : null]. *)
Definition nextFor (data : TransactionData) : option Date :=
  match isRecurring data, recurringInterval data with
  | true, Some interval =>
      Some (calculateNextRecurringDate (date data) interval)
  | _, _ => None
  end.

Local Open Scope action_scope.

(** [createTransaction(data)], given the user id [auth()] returned, the
    decision of the rate limiter and the id of the row to be. *)
Definition createTransaction (userId : option string) (decision : Decision)
    (newId : string) (data : TransactionData) : Action Transaction :=
  if noUser userId then throw "Unauthorized" else
  match decision with
  | Denied true => throw "Too many requests. Please try again later."
  | Denied false => throw "Request blocked"
  | Allowed =>
      let* user := user_findUnique (default "" userId) in
      match user with
      | None => throw "User not found"
      | Some user =>
          let* account := account_findUnique (accountId data) (user_id user) in
          match account with
          | None => throw "Account not found"
          | Some account =>
              let balanceChange :=
                match type data with
                | EXPENSE => - amount data
                | _ => amount data
                end in
              let newBalance := balance account + balanceChange in
              let* transaction :=
                dollar_transaction
                (let* newTransaction :=
                   transaction_create newId
                     {| fields := data;
                        transaction_userId := user_id user;
                        nextRecurringDate := nextFor data |} in
                 account_update (accountId data) (fun _ => newBalance);;
                 ret newTransaction) in
              ret (serializeAmount transaction)
          end
      end
  end.

(** [updateTransaction(id, data)]. *)
Definition updateTransaction (userId : option string) (id : string)
    (data : TransactionData) : Action Transaction :=
  if noUser userId then throw "Unauthorized" else
  let* user := user_findUnique (default "" userId) in
  match user with
  | None => throw "User not found"
  | Some user =>
      let* original := transaction_findUnique id (user_id user) in
      match original with
      | None => throw "Transaction not found"
      | Some original =>
          let oldChange :=
            match type (fields original) with
            | EXPENSE => - amount (fields original)
            | _ => amount (fields original)
            end in
          let newChange :=
            match type data with
            | EXPENSE => - amount data
            | _ => amount data
            end in
          let netChange := newChange - oldChange in
          let* transaction :=
            dollar_transaction
            (let* updated :=
               transaction_update id (user_id user) data (nextFor data) in
             account_update (accountId data) (fun b => b + netChange);;
             ret updated) in
          ret (serializeAmount transaction)
      end
  end.

(** *** Receipt scanning *)

Record File : Type := {
  file_type : string;
  file_bytes : list Byte.byte
}.

Record InlineData : Type := {
  mimeType : string;
  data : string
}.

Definition quoted (s : string) : string :=
  String dquote (s ++ String dquote EmptyString).

Definition prompt : string :=
  "
You are a financial assistant for an expense-tracking app.

Extract receipt data.

Rules:
- Currency is INR unless stated
- Date format: YYYY-MM-DD
- Category must be one of:
  housing, transportation, groceries, utilities, entertainment,
  food, shopping, healthcare, education, personal, travel,
  insurance, gifts, bills, other-expense
- If unsure, use " ++ quoted "other-expense" ++ "
- Return STRICT JSON only

Schema:
{
  " ++ quoted "amount" ++ ": number,
  " ++ quoted "date" ++ ": " ++ quoted "YYYY-MM-DD" ++ ",
  " ++ quoted "description" ++ ": " ++ quoted "string" ++ ",
  " ++ quoted "merchantName" ++ ": " ++ quoted "string" ++ ",
  " ++ quoted "category" ++ ": " ++ quoted "string" ++ "
}

If not a receipt, return {}.
".

(** What [scanReceipt] returns: [{}], or the five fields. *)
Record Receipt : Type := {
  receipt_amount : JSNumber;
  receipt_date : option DateResult;
  receipt_description : JSValue;
  receipt_merchantName : JSValue;
  receipt_category : JSValue
}.

Inductive ScanResult : Type :=
  | EmptyResult
  | Scanned (r : Receipt).

Definition scanFailed : string := "Failed to scan receipt".

(** The text after [.replace(/```(?:json)?/g, "").trim()]. *)
Definition cleanText (text : string) : string := trim (removeFences text).

(** The object built from [parsed]; [None] when reading it throws. *)
Definition receiptOf (parsed : JSValue) : option Receipt :=
  a ← getProp parsed "amount";
  d ← getProp parsed "date";
  ds ← getProp parsed "description";
  m ← getProp parsed "merchantName";
  c ← getProp parsed "category";
  Some {| receipt_amount := ToNumber a;
          receipt_date := if ToBoolean d then Some (newDate d) else None;
          receipt_description := nullish ds (JString "");
          receipt_merchantName := nullish m (JString "");
          receipt_category := nullish c (JString "other-expense") |}.

(** [scanReceipt(file)]; [generateContent] is the external model: the text
    of its response, or [None] when the call or the reading of its response
    throws. *)
Definition inlineDataOf (file : File) : InlineData :=
  let base64 := ES.base64 (file_bytes file) in
  {| mimeType := if isEmpty (file_type file) then "image/jpeg"
                 else file_type file;
     data := base64 |}.

Definition scanReceipt
    (generateContent : InlineData -> string -> option string) (file : File)
  : Result ScanResult :=
  match generateContent (inlineDataOf file) prompt with
  | None => Error scanFailed
  | Some text =>
      let raw := cleanText text in
      if isEmpty raw || String.eqb raw "{}" then Ok EmptyResult
      else match JSON_parse raw with
           | None => Error scanFailed
           | Some parsed =>
               match receiptOf parsed with
               | Some r => Ok (Scanned r)
               | None => Error scanFailed
               end
           end
  end.

(** ** [lib/checkUser.js] *)

(** What [currentUser()] returns for a signed-in user. *)
Record ClerkUser : Type := {
  clerk_id : string;
  emailAddresses : list string;
  firstName : option string;
  lastName : option string;
  clerk_imageUrl : string
}.

Fixpoint updateFirst (p : User -> bool) (f : User -> User) (l : list User)
  : list User :=
  match l with
  | [] => []
  | u :: r => if p u then f u :: r else u :: updateFirst p f r
  end.

(** [db.user.upsert({ where: { email }, update, create })].  The row with
    this email is updated, or [create] is added when there is none.
    [clerkUserId] is a unique column ([findUnique] selects by it) and [id] is
    the key: a write that would give two rows the same value fails. *)
Definition user_upsert (mail : string) (update : User -> User)
    (create : User) : Action User :=
  fun s =>
    let hasMail := fun u => String.eqb (email u) mail in
    match List.find hasMail (users s) with
    | Some u =>
        let u' := update u in
        if List.existsb
             (fun w => String.eqb (clerkUserId w) (clerkUserId u')
                       && negb (String.eqb (user_id w) (user_id u)))
             (users s)
        then (Error uniqueConstraint, s)
        else (Ok u', setUsers (updateFirst hasMail update (users s)) s)
    | None =>
        if List.existsb
             (fun w => String.eqb (clerkUserId w) (clerkUserId create)
                       || String.eqb (user_id w) (user_id create))
             (users s)
        then (Error uniqueConstraint, s)
        else (Ok create, setUsers (users s ++ [create]) s)
    end.

Definition typeError : string :=
  "Cannot read properties of undefined (reading 'emailAddress')".

(** [checkUser()], given what [currentUser()] returned and the id a new
    [User] row would get. *)
Definition checkUser (user : option ClerkUser) (newId : string)
  : Action (option User) :=
  match user with
  | None => ret None
  | Some user =>
      match emailAddresses user with
      | [] => throw typeError
      | mail :: _ =>
          let name :=
            trim (default "" (firstName user) ++ " "
                  ++ default "" (lastName user)) in
          let* dbUser :=
            user_upsert mail
              (fun u => {| user_id := user_id u;
                           clerkUserId := clerk_id user;
                           email := email u;
                           name := name;
                           imageUrl := clerk_imageUrl user |})
              {| user_id := newId;
                 clerkUserId := clerk_id user;
                 email := mail;
                 name := name;
                 imageUrl := clerk_imageUrl user |} in
          ret (Some dbUser)
      end
  end.

(** ** Vocabulary of the statements *)

(** The signed value of a transaction: [amount] for INCOME, [- amount] for
    EXPENSE. *)
Definition signed (t : TransactionType) (a : Z) : Z :=
  match t with
  | INCOME => a
  | EXPENSE => - a
  end.

Definition balanceOf (id : string) (s : Store) : option Z :=
  balance <$> accounts s !! id.

(** Year, month (0 = January) and day of the month of a time value. *)
Definition fieldsOf (t : Z) : Z * Z * Z :=
  (YearFromTime t, MonthFromTime t, DateFromTime t).

Definition leapYear (y : Z) : bool := (DaysInYear y =? 366)%Z.

(** How many rows have this email. *)
Definition rowsIn (mail : string) (l : list User) : nat :=
  List.length (List.filter (fun u => String.eqb (email u) mail) l).

Definition rowsWithEmail (mail : string) (s : Store) : nat :=
  rowsIn mail (users s).

(** The store after a sequence of [checkUser] calls, each with what
    [currentUser()] returned and the id a new row would get. *)
Definition checkUserCalls (calls : list (option ClerkUser * string))
    (s : Store) : Store :=
  List.fold_left (fun s c => snd (checkUser (fst c) (snd c) s)) calls s.

(** No backtick occurs in the text. *)
Fixpoint noBacktick (s : string) : bool :=
  match s with
  | EmptyString => true
  | String c r => negb (isChar "`" c) && noBacktick r
  end.

Definition newline : string := String (chr 10) EmptyString.

(** The categories a receipt may be filed under. *)
Definition categories : list string :=
  ["housing"; "transportation"; "groceries"; "utilities"; "entertainment";
   "food"; "shopping"; "healthcare"; "education"; "personal"; "travel";
   "insurance"; "gifts"; "bills"; "other-expense"].

Definition fiveMB : Z := 5 * 1024 * 1024.

(** *** Sample data *)

(** 2023-01-31, 2024-01-31 and 2024-02-29 at 10:00, and 2024-01-15 at
    midnight. *)
Definition jan31_2023 : Z := 1675159200000.
Definition jan31_2024 : Z := 1706695200000.
Definition feb29_2024 : Z := 1709200800000.
Definition jan15_2024 : Z := 1705276800000.

Definition asha : User :=
  {| user_id := "user-1"; clerkUserId := "clerk-1";
     email := "asha@example.com"; name := "Asha Rao"; imageUrl := "" |}.

Definition ravi : User :=
  {| user_id := "user-2"; clerkUserId := "clerk-2";
     email := "ravi@example.com"; name := "Ravi"; imageUrl := "" |}.

(** Asha's account holds 500.00, Ravi's 80.00. *)
Definition store0 : Store :=
  {| users := [asha; ravi];
     accounts :=
       <["account-123" := {| account_userId := "user-1"; balance := 50000 |}]>
         (<["account-9" := {| account_userId := "user-2"; balance := 8000 |}]>
            ∅);
     transactions := ∅ |}.

Definition groceries (t : TransactionType) (a : Z) : TransactionData :=
  {| type := t; amount := a; description := "Grocery shopping";
     date := Some jan15_2024; category := "groceries";
     accountId := "account-123"; isRecurring := false;
     recurringInterval := None |}.

(** The same purchase, renamed. *)
Definition vegetables : TransactionData :=
  {| type := EXPENSE; amount := 5000; description := "Vegetables";
     date := Some jan15_2024; category := "food";
     accountId := "account-123"; isRecurring := false;
     recurringInterval := None |}.

Definition storedGroceries : Transaction :=
  {| fields := groceries EXPENSE 5000;
     transaction_userId := "user-1";
     nextRecurringDate := None |}.

(** [store0] with Asha's purchase recorded (the balance left as it is). *)
Definition store1 : Store := setTransaction "tx-1" storedGroceries store0.

Definition gym (interval : RecurringInterval) : TransactionData :=
  {| type := EXPENSE; amount := 120000; description := "Gym";
     date := Some jan15_2024; category := "personal";
     accountId := "account-123"; isRecurring := true;
     recurringInterval := Some interval |}.

Definition ashaAtClerk : ClerkUser :=
  {| clerk_id := "clerk-1"; emailAddresses := ["asha@example.com"];
     firstName := Some "Asha"; lastName := None; clerk_imageUrl := "a.png" |}.

Definition receiptImage : File :=
  {| file_type := "image/png"; file_bytes := [Byte.x89; Byte.x50; Byte.x4e] |}.

(** An image of 5 MB and one byte. *)
Definition largeImage : File :=
  {| file_type := "image/jpeg";
     file_bytes := List.repeat Byte.xff (N.to_nat 5242881) |}.

Definition fencedEmpty : string :=
  "```json
{}
```".

Definition receiptJson : string :=
  "{" ++ quoted "amount" ++ ":" ++ quoted "12.50" ++ ","
  ++ quoted "date" ++ ":" ++ quoted "2024-01-15" ++ ","
  ++ quoted "category" ++ ":" ++ quoted "zzz" ++ "}".

Definition refundJson : string :=
  "{" ++ quoted "amount" ++ ":-5}".

Definition scannedReceipt : Receipt :=
  {| receipt_amount := Num (25 # 2);
     receipt_date := Some (ADate (Some jan15_2024));
     receipt_description := JString "";
     receipt_merchantName := JString "";
     receipt_category := JString "zzz" |}.

Definition scannedRefund : Receipt :=
  {| receipt_amount := Num (-5 # 1);
     receipt_date := None;
     receipt_description := JString "";
     receipt_merchantName := JString "";
     receipt_category := JString "other-expense" |}.

(** What an object with none of the five members gives. *)
Definition blankReceipt : Receipt :=
  {| receipt_amount := NaN;
     receipt_date := None;
     receipt_description := JString "";
     receipt_merchantName := JString "";
     receipt_category := JString "other-expense" |}.

(** ** The reading actions of [actions/transaction.js] *)

(** [getTransaction(id)]. *)
Definition getTransaction (userId : option string) (id : string)
  : Action Transaction :=
  if noUser userId then throw "Unauthorized" else
  let* user := user_findUnique (default "" userId) in
  match user with
  | None => throw "User not found"
  | Some user =>
      let* transaction := transaction_findUnique id (user_id user) in
      match transaction with
      | None => throw "Transaction not found"
      | Some transaction => ret (serializeAmount transaction)
      end
  end.

(** The [query] object of [getUserTransactions], for queries that filter
    columns by equality: a field is [None] when the object has no such key. *)
Record Query : Type := {
  query_userId : option string;
  query_accountId : option string;
  query_type : option TransactionType;
  query_category : option string;
  query_isRecurring : option bool
}.

(** [query = {}]. *)
Definition emptyQuery : Query :=
  {| query_userId := None; query_accountId := None; query_type := None;
     query_category := None; query_isRecurring := None |}.

(** [{ userId: user.id, ...query }]: a key of [query] replaces the one
    written before the spread. *)
Definition whereOf (userId : string) (query : Query) : Query :=
  {| query_userId := Some (default userId (query_userId query));
     query_accountId := query_accountId query;
     query_type := query_type query;
     query_category := query_category query;
     query_isRecurring := query_isRecurring query |}.

Definition TransactionType_eqb (a b : TransactionType) : bool :=
  match a, b with
  | INCOME, INCOME | EXPENSE, EXPENSE => true
  | _, _ => false
  end.

Definition holds {A} (eqb : A -> A -> bool) (filter : option A) (x : A)
  : bool :=
  match filter with
  | Some v => eqb x v
  | None => true
  end.

(** The row passes every filter of [where]. *)
Definition matches (where_ : Query) (t : Transaction) : bool :=
  holds String.eqb (query_userId where_) (transaction_userId t)
  && holds String.eqb (query_accountId where_) (accountId (fields t))
  && holds TransactionType_eqb (query_type where_) (type (fields t))
  && holds String.eqb (query_category where_) (category (fields t))
  && holds Bool.eqb (query_isRecurring where_) (isRecurring (fields t)).

(** [a <= b] on dates, an Invalid Date before every other. *)
Definition dateLeb (a b : Date) : bool :=
  match a, b with
  | Some x, Some y => (x <=? y)%Z
  | None, _ => true
  | Some _, None => false
  end.

(** A row as [findMany] returns it with [include: { account: true }]. *)
Record Listed : Type := {
  listed_id : string;
  listed_row : Transaction;
  listed_account : option Account
}.

(** [orderBy: { date: "desc" }]: the row with the later date comes first. *)
Definition newerFirst (a b : string * Transaction) : Prop :=
  dateLeb (date (fields (snd b))) (date (fields (snd a))) = true.

#[global] Instance newerFirst_dec : RelDecision newerFirst.
Proof. intros a b. unfold newerFirst. apply _. Defined.

(** [db.transaction.findMany({ where, include: { account: true },
    orderBy: { date: "desc" } })].  The order among rows of one date is not
    fixed by the query. *)
Definition transaction_findMany (where_ : Query) : Action (list Listed) :=
  fun s =>
    let rows :=
      List.filter (fun r => matches where_ (snd r))
        (map_to_list (transactions s)) in
    (Ok (List.map
           (fun r => {| listed_id := fst r;
                        listed_row := snd r;
                        listed_account :=
                          accounts s !! accountId (fields (snd r)) |})
           (merge_sort newerFirst rows)), s).

(** [getUserTransactions(query)]. *)
Definition getUserTransactions (userId : option string) (query : Query)
  : Action (list Listed) :=
  if noUser userId then throw "Unauthorized" else
  let* user := user_findUnique (default "" userId) in
  match user with
  | None => throw "User not found"
  | Some user => transaction_findMany (whereOf (user_id user) query)
  end.

(** ** Vocabulary of the further statements *)

(** [query] with its [userId] key set, or taken away. *)
Definition withUserId (userId : option string) (query : Query) : Query :=
  {| query_userId := userId;
     query_accountId := query_accountId query;
     query_type := query_type query;
     query_category := query_category query;
     query_isRecurring := query_isRecurring query |}.

(** In a list, the date of [a] is not before the date of [b]. *)
Definition notOlder (a b : Listed) : Prop :=
  dateLeb (date (fields (listed_row b))) (date (fields (listed_row a))) = true.

(** What a transaction adds to the balance of its account. *)
Definition contribution (t : Transaction) : Z :=
  signed (type (fields t)) (amount (fields t)).

(** The sum of the signed amounts of the transactions on an account. *)
Definition ledgerSum (account : string) (s : Store) : Z :=
  map_fold
    (fun _ t z => if String.eqb (accountId (fields t)) account
                  then (z + contribution t)%Z else z)
    0%Z (transactions s).

(** How far the balance of an account is from the sum of its transactions
    (its opening balance, when the two have moved together). *)
Definition drift (account : string) (s : Store) : option Z :=
  (fun b => (b - ledgerSum account s)%Z) <$> balanceOf account s.

(** A call of one of the two writing actions. *)
Inductive Call : Type :=
  | Create (userId : option string) (decision : Decision) (newId : string)
           (data : TransactionData)
  | Update (userId : option string) (id : string) (data : TransactionData).

Definition runCall (c : Call) (s : Store) : Store :=
  match c with
  | Create userId decision newId data =>
      snd (createTransaction userId decision newId data s)
  | Update userId id data => snd (updateTransaction userId id data s)
  end.

Definition runCalls (calls : list Call) (s : Store) : Store :=
  List.fold_left (fun s c => runCall c s) calls s.

(** The call is not an update that names another account than the one the
    transaction is on. *)
Definition keepsAccount (c : Call) (s : Store) : Prop :=
  match c with
  | Create _ _ _ _ => True
  | Update _ id data =>
      forall original,
        transactions s !! id = Some original ->
        accountId (fields original) = accountId data
  end.

Fixpoint keepAccounts (calls : list Call) (s : Store) : Prop :=
  match calls with
  | [] => True
  | c :: rest => keepsAccount c s /\ keepAccounts rest (runCall c s)
  end.

(** [n] recurrences of a MONTHLY transaction. *)
Definition monthsLater (n : nat) (d : Date) : Date :=
  Nat.iter n (fun d => calculateNextRecurringDate d MONTHLY) d.

(** The text begins with three backticks. *)
Definition fenceAtStart (s : string) : bool :=
  match s with
  | String c1 (String c2 (String c3 _)) =>
      isChar "`" c1 && isChar "`" c2 && isChar "`" c3
  | _ => false
  end.

(** The text holds a code-fence marker: three backticks in a row. *)
Fixpoint hasFence (s : string) : bool :=
  match s with
  | EmptyString => false
  | String _ r => fenceAtStart s || hasFence r
  end.

(** *** More sample data *)

Definition march10_2024 : Z := 1710065700000.

Definition storedGym : Transaction :=
  {| fields := gym MONTHLY;
     transaction_userId := "user-1";
     nextRecurringDate := Some (Some 1707955200000) |}.

Definition storedRavi : Transaction :=
  {| fields :=
       {| type := INCOME; amount := 30000; description := "Salary";
          date := Some march10_2024; category := "salary";
          accountId := "account-9"; isRecurring := false;
          recurringInterval := None |};
     transaction_userId := "user-2";
     nextRecurringDate := None |}.

(** [store1] with a second transaction of Asha's and one of Ravi's. *)
Definition store2 : Store :=
  setTransaction "tx-3" storedRavi (setTransaction "tx-2" storedGym store1).

(** Another identity that presents Asha's email. *)
Definition raviAtClerk : ClerkUser :=
  {| clerk_id := "clerk-7"; emailAddresses := ["asha@example.com"];
     firstName := Some "Ravi"; lastName := None; clerk_imageUrl := "r.png" |}.

(** Groceries put on Ravi's account. *)
Definition groceriesOnRavi : TransactionData :=
  {| type := EXPENSE; amount := 7000; description := "Grocery shopping";
     date := Some jan15_2024; category := "groceries";
     accountId := "account-9"; isRecurring := false;
     recurringInterval := None |}.

(** * Properties *)

Local Open Scope Z_scope.

(** ** Calendar arithmetic *)

(** [YearFromDay d] is the largest year that starts on or before day [d]. *)
Lemma YearFromDay_spec d :
  DayFromYear (YearFromDay d) <= d < DayFromYear (YearFromDay d + 1).
Proof.
  unfold YearFromDay, DayFromYear; cbv zeta.
  repeat case Z.leb_spec; intros; Z.div_mod_to_equations; lia.
Qed.

Lemma DayFromYear_mono a b : a <= b -> DayFromYear a <= DayFromYear b.
Proof. unfold DayFromYear. intros. Z.div_mod_to_equations. lia. Qed.

(** [YearFromTime t] is the largest year whose start is not after [t]. *)
Lemma YearFromTime_largest t :
  TimeFromYear (YearFromTime t) <= t
  /\ forall y, TimeFromYear y <= t -> y <= YearFromTime t.
Proof.
  unfold TimeFromYear, YearFromTime.
  pose proof (YearFromDay_spec (Day t)) as [L U].
  assert (D : msPerDay * Day t <= t < msPerDay * Day t + msPerDay)
    by (unfold Day, msPerDay; Z.div_mod_to_equations; lia).
  split; [unfold msPerDay in *; lia |].
  intros y Hy.
  destruct (Z_le_gt_dec y (YearFromDay (Day t))) as [| G]; [assumption |].
  pose proof (DayFromYear_mono (YearFromDay (Day t) + 1) y ltac:(lia)).
  unfold msPerDay in *. lia.
Qed.

Lemma DaysInYear_cases y : DaysInYear y = 365 \/ DaysInYear y = 366.
Proof.
  unfold DaysInYear.
  repeat match goal with |- context [negb ?b] => destruct b; simpl end; auto.
Qed.

Lemma DayFromYear_succ y : DayFromYear (y + 1) = DayFromYear y + DaysInYear y.
Proof.
  unfold DayFromYear, DaysInYear.
  repeat match goal with |- context [?a =? ?b] => destruct (Z.eqb_spec a b); simpl end;
  Z.div_mod_to_equations; lia.
Qed.

Lemma YearFromDay_unique y d :
  DayFromYear y <= d < DayFromYear (y + 1) -> YearFromDay d = y.
Proof.
  intros H. pose proof (YearFromDay_spec d) as S.
  destruct (Z.lt_trichotomy (YearFromDay d) y) as [L | [E | G]]; [| exact E |].
  - pose proof (DayFromYear_mono (YearFromDay d + 1) y ltac:(lia)). lia.
  - pose proof (DayFromYear_mono (y + 1) (YearFromDay d) ltac:(lia)). lia.
Qed.

Lemma Day_MakeDate day tod : 0 <= tod < msPerDay -> Day (MakeDate day tod) = day.
Proof.
  unfold Day, MakeDate, msPerDay. intros. Z.div_mod_to_equations. lia.
Qed.

Lemma TimeWithinDay_MakeDate day tod :
  0 <= tod < msPerDay -> TimeWithinDay (MakeDate day tod) = tod.
Proof.
  unfold TimeWithinDay, MakeDate, msPerDay. intros. Z.div_mod_to_equations. lia.
Qed.

Lemma MakeDate_Day t : MakeDate (Day t) (TimeWithinDay t) = t.
Proof.
  unfold MakeDate, Day, TimeWithinDay, msPerDay. Z.div_mod_to_equations. lia.
Qed.

Lemma TimeWithinDay_range t : 0 <= TimeWithinDay t < msPerDay.
Proof. unfold TimeWithinDay, msPerDay. Z.div_mod_to_equations. lia. Qed.

(** The fields of a time in year [y], [k] days after its first day. *)
Lemma year_of_day y k tod :
  0 <= k < DaysInYear y -> 0 <= tod < msPerDay ->
  let t := MakeDate (DayFromYear y + k) tod in
  YearFromTime t = y /\ DayWithinYear t = k
  /\ InLeapYear t = (if DaysInYear y =? 366 then 1 else 0).
Proof.
  intros Hk Ht t.
  assert (Y : YearFromTime t = y).
  { unfold YearFromTime, t. rewrite Day_MakeDate by assumption.
    apply YearFromDay_unique. rewrite DayFromYear_succ. lia. }
  unfold DayWithinYear, InLeapYear. rewrite Y. unfold t.
  rewrite Day_MakeDate by assumption. repeat split; lia.
Qed.

Lemma month_cases m : 0 <= m < 12 ->
  m = 0 \/ m = 1 \/ m = 2 \/ m = 3 \/ m = 4 \/ m = 5 \/ m = 6 \/ m = 7
  \/ m = 8 \/ m = 9 \/ m = 10 \/ m = 11.
Proof. lia. Qed.

Ltac months m H :=
  destruct (month_cases m H) as
    [-> | [-> | [-> | [-> | [-> | [-> | [-> | [-> | [-> | [-> | [-> | ->]]]]]]]]]]].

Lemma DaysBeforeMonth_bound y m d :
  0 <= m < 12 -> 1 <= d <= DaysInMonth y m ->
  0 <= DaysBeforeMonth y m + d - 1 < DaysInYear y.
Proof.
  intros Hm Hd. destruct (DaysInYear_cases y) as [E | E];
  months m Hm; unfold DaysBeforeMonth, DaysInMonth in *; rewrite E in *;
  simpl in *; lia.
Qed.

Lemma fields_of_MakeDay y m d tod :
  0 <= m < 12 -> 1 <= d <= DaysInMonth y m -> 0 <= tod < msPerDay ->
  fieldsOf (MakeDate (MakeDay y m d) tod) = (y, m, d).
Proof.
  intros Hm Hd Ht.
  pose proof (DaysBeforeMonth_bound y m d Hm Hd) as Hk.
  assert (E : MakeDay y m d = DayFromYear y + (DaysBeforeMonth y m + d - 1)).
  { unfold MakeDay. cbv zeta.
    replace (m / 12) with 0 by (Z.div_mod_to_equations; lia).
    replace (m mod 12) with m by (Z.div_mod_to_equations; lia).
    rewrite Z.add_0_r. lia. }
  rewrite E.
  destruct (year_of_day y _ tod Hk Ht) as (Y & W & L).
  unfold fieldsOf. rewrite Y.
  enough (MonthFromTime (MakeDate (DayFromYear y + (DaysBeforeMonth y m + d - 1)) tod) = m
          /\ DateFromTime (MakeDate (DayFromYear y + (DaysBeforeMonth y m + d - 1)) tod) = d)
    as [-> ->] by reflexivity.
  unfold DateFromTime, MonthFromTime. cbv zeta. rewrite W, L.
  clear Y W L E Hk.
  destruct (DaysInYear_cases y) as [E | E];
  unfold DaysBeforeMonth, DaysInMonth in *; rewrite E in *; simpl (_ =? _) in *; cbv iota in *;
  months m Hm; cbv iota beta in *;
  repeat (case Z.ltb_spec; intro; try lia); split; lia.
Qed.

Lemma MakeDay_normal y m d :
  0 <= m < 12 -> MakeDay y m d = DayFromYear y + DaysBeforeMonth y m + d - 1.
Proof.
  intros Hm. unfold MakeDay. cbv zeta.
  replace (m / 12) with 0 by (Z.div_mod_to_equations; lia).
  replace (m mod 12) with m by (Z.div_mod_to_equations; lia).
  now rewrite Z.add_0_r.
Qed.

Lemma MakeDay_carry y d : MakeDay y 12 d = MakeDay (y + 1) 0 d.
Proof.
  unfold MakeDay. cbv zeta.
  change (12 / 12) with 1. change (12 mod 12) with 0.
  change (0 / 12) with 0. change (0 mod 12) with 0.
  now rewrite (Z.add_0_r (y + 1)).
Qed.

Lemma DaysBeforeMonth_succ y m :
  0 <= m < 11 ->
  DaysBeforeMonth y (m + 1) = DaysBeforeMonth y m + DaysInMonth y m.
Proof.
  intros Hm. unfold DaysBeforeMonth, DaysInMonth.
  destruct (DaysInYear y =? 366);
  assert (C : 0 <= m < 12) by lia; months m C; simpl; lia.
Qed.

Lemma DaysInMonth_range y m : 28 <= DaysInMonth y m <= 31.
Proof.
  unfold DaysInMonth. destruct (DaysInYear y =? 366);
  repeat match goal with |- context [match ?x with _ => _ end] => destruct x end; lia.
Qed.

Lemma December y : DaysBeforeMonth y 11 + DaysInMonth y 11 = DaysInYear y.
Proof.
  unfold DaysBeforeMonth, DaysInMonth.
  destruct (DaysInYear_cases y) as [E | E]; rewrite E; reflexivity.
Qed.

Lemma fields_of_MakeDay_overflow y m d tod :
  0 <= m < 11 -> DaysInMonth y m < d <= 31 -> 0 <= tod < msPerDay ->
  fieldsOf (MakeDate (MakeDay y m d) tod) = (y, m + 1, d - DaysInMonth y m).
Proof.
  intros Hm Hd Ht.
  replace (MakeDay y m d) with (MakeDay y (m + 1) (d - DaysInMonth y m)).
  - apply fields_of_MakeDay; try lia.
    pose proof (DaysInMonth_range y m). pose proof (DaysInMonth_range y (m + 1)).
    lia.
  - rewrite !MakeDay_normal by lia. rewrite DaysBeforeMonth_succ by lia. lia.
Qed.

(** Every time is the day its own fields name. *)
Lemma fields_sound t :
  0 <= MonthFromTime t < 12
  /\ 1 <= DateFromTime t <= DaysInMonth (YearFromTime t) (MonthFromTime t)
  /\ Day t = MakeDay (YearFromTime t) (MonthFromTime t) (DateFromTime t).
Proof.
  pose proof (YearFromDay_spec (Day t)) as S.
  rewrite DayFromYear_succ in S.
  assert (M : 0 <= MonthFromTime t < 12).
  { unfold MonthFromTime. cbv zeta. repeat (case Z.ltb_spec; intro; try lia). }
  split; [exact M |].
  rewrite MakeDay_normal by exact M.
  unfold DateFromTime, MonthFromTime, DaysInMonth, DaysBeforeMonth,
    InLeapYear, DayWithinYear, YearFromTime in *. cbv zeta.
  set (y := YearFromDay (Day t)) in *.
  destruct (DaysInYear_cases y) as [E | E]; rewrite E in *;
  simpl (_ =? _); cbv iota;
  repeat (case Z.ltb_spec; intro; try lia); cbv iota; lia.
Qed.

Lemma LocalTime_id t : LocalTime t = t.
Proof. unfold LocalTime, LocalTZA. lia. Qed.

Lemma UTC_id t : UTC t = t.
Proof. unfold UTC, LocalTZA. lia. Qed.

Lemma TimeClip_in_range t : - maxTime <= t <= maxTime -> TimeClip t = Some t.
Proof.
  intros H. unfold TimeClip. case Z.leb_spec; [reflexivity | lia].
Qed.

Lemma MakeDay_next_month t :
  MakeDay (YearFromTime t) (MonthFromTime t + 1) (DateFromTime t)
  = Day t + DaysInMonth (YearFromTime t) (MonthFromTime t).
Proof.
  destruct (fields_sound t) as (Hm & Hd & E).
  rewrite E, (MakeDay_normal _ (MonthFromTime t)) by exact Hm.
  destruct (Z.eq_dec (MonthFromTime t) 11) as [E11 | N11].
  - rewrite E11. change (11 + 1) with 12.
    rewrite MakeDay_carry, MakeDay_normal by lia.
    rewrite DayFromYear_succ, <- December.
    change (DaysBeforeMonth (YearFromTime t + 1) 0) with 0. lia.
  - rewrite MakeDay_normal, DaysBeforeMonth_succ by lia. lia.
Qed.

Lemma MakeDay_next_year t :
  365 <= MakeDay (YearFromTime t + 1) (MonthFromTime t) (DateFromTime t) - Day t
      <= 366.
Proof.
  destruct (fields_sound t) as (Hm & Hd & E).
  rewrite E, !MakeDay_normal by exact Hm. rewrite DayFromYear_succ.
  set (y := YearFromTime t) in *. set (m := MonthFromTime t) in *.
  assert (L : DaysInYear y = 366 -> DaysInYear (y + 1) = 365).
  { unfold DaysInYear.
    repeat match goal with |- context [?a =? ?b] => destruct (Z.eqb_spec a b); simpl end;
    intros; try lia; Z.div_mod_to_equations; lia. }
  unfold DaysBeforeMonth.
  destruct (DaysInYear_cases y) as [E1 | E1];
  destruct (DaysInYear_cases (y + 1)) as [E2 | E2];
  rewrite ?E1, ?E2 in *; try (specialize (L eq_refl); lia);
  simpl (_ =? _); cbv iota; months m Hm; lia.
Qed.

Lemma monthly_next t :
  - maxTime <= t <= maxTime - 366 * msPerDay ->
  let y := YearFromTime t in
  let m := MonthFromTime t in
  let d := DateFromTime t in
  let y1 := if m =? 11 then y + 1 else y in
  let m1 := if m =? 11 then 0 else m + 1 in
  exists t',
    calculateNextRecurringDate (Some t) MONTHLY = Some t'
    /\ t' = t + DaysInMonth y m * msPerDay
    /\ TimeWithinDay t' = TimeWithinDay t
    /\ fieldsOf t' = (if d <=? DaysInMonth y1 m1 then (y1, m1, d)
                      else (y1, m1 + 1, d - DaysInMonth y1 m1)).
Proof.
  intros R y m d y1 m1.
  destruct (fields_sound t) as (Hm & Hd & E). fold y m d in Hm, Hd, E.
  pose proof (TimeWithinDay_range t) as Ht.
  pose proof (DaysInMonth_range y m) as Rm.
  pose proof (MakeDay_next_month t) as N. fold y m d in N.
  assert (T : MakeDate (MakeDay y (m + 1) d) (TimeWithinDay t)
              = t + DaysInMonth y m * msPerDay).
  { rewrite N. rewrite <- (MakeDate_Day t) at 3. unfold MakeDate. lia. }
  exists (t + DaysInMonth y m * msPerDay).
  split; [| split; [reflexivity | split]].
  - unfold calculateNextRecurringDate, setMonth, getMonth. simpl.
    rewrite UTC_id, !LocalTime_id. fold y m d. rewrite T.
    apply TimeClip_in_range. unfold msPerDay in *. lia.
  - rewrite <- T. apply TimeWithinDay_MakeDate. exact Ht.
  - rewrite <- T.
    assert (C : MakeDay y (m + 1) d = MakeDay y1 m1 d).
    { unfold y1, m1. destruct (Z.eqb_spec m 11) as [-> | _].
      - apply MakeDay_carry.
      - reflexivity. }
    rewrite C.
    assert (Hm1 : 0 <= m1 < 12) by (unfold m1; destruct (Z.eqb_spec m 11); lia).
    case Z.leb_spec; intro Hle.
    + apply fields_of_MakeDay; try assumption. lia.
    + apply fields_of_MakeDay_overflow; try assumption.
      * enough (m1 <> 11) by lia. intro Q. rewrite Q in Hle.
        change (DaysInMonth y1 11) with 31 in Hle. lia.
      * lia.
Qed.

Lemma yearly_next t :
  - maxTime <= t <= maxTime - 366 * msPerDay ->
  let y := YearFromTime t in
  let m := MonthFromTime t in
  let d := DateFromTime t in
  exists t',
    calculateNextRecurringDate (Some t) YEARLY = Some t'
    /\ t + 365 * msPerDay <= t' <= t + 366 * msPerDay
    /\ TimeWithinDay t' = TimeWithinDay t
    /\ fieldsOf t' = (if (m =? 1) && (d =? 29) && negb (leapYear (y + 1))
                      then (y + 1, 2, 1) else (y + 1, m, d)).
Proof.
  intros R y m d.
  destruct (fields_sound t) as (Hm & Hd & E). fold y m d in Hm, Hd, E.
  pose proof (TimeWithinDay_range t) as Ht.
  pose proof (MakeDay_next_year t) as N. fold y m d in N.
  set (t' := MakeDate (MakeDay (y + 1) m d) (TimeWithinDay t)).
  assert (B : t + 365 * msPerDay <= t' <= t + 366 * msPerDay).
  { unfold t'. rewrite <- (MakeDate_Day t) at 1 4. unfold MakeDate, msPerDay. lia. }
  exists t'. split; [| split; [exact B | split]].
  - unfold calculateNextRecurringDate, setFullYear, getFullYear. simpl.
    rewrite UTC_id, !LocalTime_id. fold y m d t'.
    apply TimeClip_in_range. unfold msPerDay in *. lia.
  - apply TimeWithinDay_MakeDate. exact Ht.
  - unfold t', leapYear.
    destruct (Z.leb_spec d (DaysInMonth (y + 1) m)) as [Hle | Hgt].
    + replace ((m =? 1) && (d =? 29) && negb (DaysInYear (y + 1) =? 366)) with false.
      * apply fields_of_MakeDay; try assumption. lia.
      * symmetry. apply andb_false_iff.
        destruct (Z.eqb_spec m 1) as [-> |]; [| left; reflexivity].
        destruct (Z.eqb_spec d 29) as [-> |]; [| left; reflexivity].
        right. unfold DaysInMonth in Hle.
        destruct (DaysInYear (y + 1) =? 366); [reflexivity | lia].
    + assert (m = 1 /\ d = 29 /\ (DaysInYear (y + 1) =? 366) = false) as (-> & -> & L).
      { unfold DaysInMonth in Hgt, Hd.
        destruct (DaysInYear (y + 1) =? 366), (DaysInYear y =? 366);
        months m Hm; lia. }
      rewrite L. simpl.
      rewrite fields_of_MakeDay_overflow; try assumption; try lia.
      unfold DaysInMonth. rewrite L. reflexivity.
Qed.

(** ** The next date of a recurring transaction *)




(** [nextRecurringDate] is set exactly for a recurring transaction with an
    interval. *)
Lemma nextFor_present data :
  nextFor data <> None
  <-> isRecurring data = true /\ recurringInterval data <> None.
Proof.
  unfold nextFor. destruct (isRecurring data), (recurringInterval data);
  split; intros H; try (destruct H; congruence);
  try (split; congruence); congruence.
Qed.

(** For MONTHLY and YEARLY it is later than the date. *)
Lemma nextFor_later data t interval :
  isRecurring data = true -> recurringInterval data = Some interval ->
  interval = MONTHLY \/ interval = YEARLY ->
  date data = Some t -> - maxTime <= t <= maxTime - 366 * msPerDay ->
  exists t', nextFor data = Some (Some t') /\ t < t'.
Proof.
  intros Hr Hi Hm Hd R. unfold nextFor. rewrite Hr, Hi, Hd.
  destruct Hm as [-> | ->].
  - destruct (monthly_next t R) as (t' & E & T & _).
    exists t'. split; [now rewrite E |].
    pose proof (DaysInMonth_range (YearFromTime t) (MonthFromTime t)).
    unfold msPerDay in *. lia.
  - destruct (yearly_next t R) as (t' & E & T & _).
    exists t'. split; [now rewrite E |]. unfold msPerDay in *. lia.
Qed.

(** For DAILY and WEEKLY it is the date itself. *)
Lemma nextFor_daily_weekly data interval :
  isRecurring data = true -> recurringInterval data = Some interval ->
  interval = DAILY \/ interval = WEEKLY ->
  nextFor data = Some (date data).
Proof.
  intros Hr Hi [-> | ->]; unfold nextFor; now rewrite Hr, Hi.
Qed.

(** C5, at the failing input: a DAILY recurring transaction dated 15 January
    2024 is stored with [nextRecurringDate] on that same date, not after
    it. *)
Theorem daily_transaction_recurs_on_its_own_date :
  exists row s',
    createTransaction (Some "clerk-1") Allowed "tx-1" (gym DAILY) store0
    = (Ok row, s')
    /\ transactions s' !! "tx-1" = Some row
    /\ isRecurring (fields row) = true
    /\ recurringInterval (fields row) = Some DAILY
    /\ date (fields row) = Some jan15_2024
    /\ nextRecurringDate row = Some (Some jan15_2024).
Proof.
  eexists _, _. split; [vm_compute; reflexivity |].
  repeat split; reflexivity.
Qed.

(** ** Balances *)

Local Open Scope string_scope.

Lemma change_signed t a :
  match t with EXPENSE => - a | _ => a end = signed t a.
Proof. now destruct t. Qed.

Lemma findAccount_owned id uid s acc :
  accounts s !! id = Some acc -> account_userId acc = uid ->
  findAccount id uid s = Some acc.
Proof. intros H <-. unfold findAccount. now rewrite H, String.eqb_refl. Qed.

Lemma findAccount_Some id uid s acc :
  findAccount id uid s = Some acc ->
  accounts s !! id = Some acc /\ account_userId acc = uid.
Proof.
  unfold findAccount. destruct (accounts s !! id) as [a |]; [| discriminate].
  destruct (String.eqb_spec (account_userId a) uid); [| discriminate].
  now intros [= <-].
Qed.

Lemma findTransaction_owned id uid s t :
  transactions s !! id = Some t -> transaction_userId t = uid ->
  findTransaction id uid s = Some t.
Proof.
  intros H <-. unfold findTransaction. now rewrite H, String.eqb_refl.
Qed.

(** What [createTransaction] does, case by case. *)
Lemma createTransaction_run uid decision newId data s :
  createTransaction uid decision newId data s =
  if noUser uid then (Error "Unauthorized", s) else
  match decision with
  | Denied true => (Error "Too many requests. Please try again later.", s)
  | Denied false => (Error "Request blocked", s)
  | Allowed =>
      match findUser (default "" uid) s with
      | None => (Error "User not found", s)
      | Some user =>
          match findAccount (accountId data) (user_id user) s with
          | None => (Error "Account not found", s)
          | Some acc =>
              match transactions s !! newId with
              | Some _ => (Error uniqueConstraint, s)
              | None =>
                  let row := {| fields := data;
                                transaction_userId := user_id user;
                                nextRecurringDate := nextFor data |} in
                  (Ok row,
                   setAccount (accountId data)
                     {| account_userId := account_userId acc;
                        balance := balance acc
                                   + signed (type data) (amount data) |}
                     (setTransaction newId row s))
              end
          end
      end
  end.
Proof.
  unfold createTransaction.
  destruct (noUser uid); [reflexivity |].
  destruct decision as [| []]; try reflexivity.
  unfold bind at 1, user_findUnique.
  destruct (findUser (default "" uid) s) as [user |]; [| reflexivity].
  unfold bind at 1, account_findUnique.
  destruct (findAccount (accountId data) (user_id user) s) as [acc |] eqn:Ha;
    [| reflexivity].
  apply findAccount_Some in Ha as [Ha _].
  unfold dollar_transaction, bind, transaction_create, account_update, ret.
  destruct (transactions s !! newId); [reflexivity |].
  simpl. rewrite Ha. now rewrite change_signed.
Qed.

(** What [updateTransaction] does, case by case. *)
Lemma updateTransaction_run uid id data s :
  updateTransaction uid id data s =
  if noUser uid then (Error "Unauthorized", s) else
  match findUser (default "" uid) s with
  | None => (Error "User not found", s)
  | Some user =>
      match findTransaction id (user_id user) s with
      | None => (Error "Transaction not found", s)
      | Some original =>
          match accounts s !! accountId data with
          | None => (Error recordNotFound, s)
          | Some acc =>
              let row := {| fields := data;
                            transaction_userId := transaction_userId original;
                            nextRecurringDate := nextFor data |} in
              (Ok row,
               setAccount (accountId data)
                 {| account_userId := account_userId acc;
                    balance :=
                      balance acc
                      + (signed (type data) (amount data)
                         - signed (type (fields original))
                             (amount (fields original))) |}
                 (setTransaction id row s))
          end
      end
  end.
Proof.
  unfold updateTransaction.
  destruct (noUser uid); [reflexivity |].
  unfold bind at 1, user_findUnique.
  destruct (findUser (default "" uid) s) as [user |]; [| reflexivity].
  unfold bind at 1, transaction_findUnique.
  destruct (findTransaction id (user_id user) s) as [original |] eqn:Ht;
    [| reflexivity].
  unfold dollar_transaction, bind, transaction_update, account_update, ret.
  rewrite Ht. simpl.
  destruct (accounts s !! accountId data); [| reflexivity].
  now rewrite !change_signed.
Qed.

Lemma balanceOf_setAccount id row s :
  balanceOf id (setAccount id row s) = Some (balance row).
Proof. unfold balanceOf, setAccount. simpl. now rewrite lookup_insert_eq. Qed.



Lemma updateTransaction_net s uid user id original data acc :
  noUser (Some uid) = false ->
  findUser uid s = Some user ->
  transactions s !! id = Some original ->
  transaction_userId original = user_id user ->
  accounts s !! accountId data = Some acc ->
  updateTransaction (Some uid) id data s =
  (Ok {| fields := data;
         transaction_userId := transaction_userId original;
         nextRecurringDate := nextFor data |},
   setAccount (accountId data)
     {| account_userId := account_userId acc;
        balance := balance acc
                   + (signed (type data) (amount data)
                      - signed (type (fields original))
                          (amount (fields original))) |}
     (setTransaction id
        {| fields := data;
           transaction_userId := transaction_userId original;
           nextRecurringDate := nextFor data |} s)).
Proof.
  intros Hu Hf Ht Ho Ha.
  rewrite updateTransaction_run, Hu. simpl default.
  now rewrite Hf, (findTransaction_owned _ _ _ _ Ht Ho), Ha.
Qed.



(** C9: an update that keeps the type and the amount of the stored
    transaction goes through with a net change of zero: every account keeps
    its balance. *)
Theorem updateTransaction_same_amount s uid user id original data acc :
  noUser (Some uid) = false ->
  findUser uid s = Some user ->
  transactions s !! id = Some original ->
  transaction_userId original = user_id user ->
  accounts s !! accountId data = Some acc ->
  type data = type (fields original) ->
  amount data = amount (fields original) ->
  signed (type data) (amount data)
  - signed (type (fields original)) (amount (fields original)) = 0
  /\ exists row s',
       updateTransaction (Some uid) id data s = (Ok row, s')
       /\ accounts s' = accounts s
       /\ balanceOf (accountId data) s' = Some (balance acc).
Proof.
  intros Hu Hf Ht Ho Ha Ety Eam.
  assert (Z0 : signed (type data) (amount data)
               - signed (type (fields original)) (amount (fields original))
               = 0) by (rewrite Ety, Eam; lia).
  split; [exact Z0 |].
  rewrite (updateTransaction_net _ _ _ _ _ _ _ Hu Hf Ht Ho Ha), Z0, Z.add_0_r.
  eexists _, _. split; [reflexivity |].
  assert (R : {| account_userId := account_userId acc; balance := balance acc |}
              = acc) by now destruct acc.
  rewrite R. split.
  - unfold setAccount, setTransaction. simpl. now apply insert_id.
  - now rewrite balanceOf_setAccount.
Qed.

Lemma updateTransaction_same_amount_witness :
  signed EXPENSE 5000 - signed EXPENSE 5000 = 0
  /\ exists row s',
       updateTransaction (Some "clerk-1") "tx-1" vegetables store1
       = (Ok row, s')
       /\ accounts s' = accounts store1
       /\ balanceOf "account-123" s' = Some 50000.
Proof.
  apply (updateTransaction_same_amount store1 "clerk-1" asha "tx-1"
           storedGroceries vegetables
           {| account_userId := "user-1"; balance := 50000 |});
  reflexivity.
Defined.

(** ** All-or-nothing writes *)

Lemma createTransaction_error uid decision newId data s e s' :
  createTransaction uid decision newId data s = (Error e, s') -> s' = s.
Proof.
  rewrite createTransaction_run.
  destruct (noUser uid); [now intros [= _ <-] |].
  destruct decision as [| []]; try now intros [= _ <-].
  destruct (findUser (default "" uid) s); [| now intros [= _ <-]].
  destruct (findAccount (accountId data) (user_id u) s); [| now intros [= _ <-]].
  destruct (transactions s !! newId); [now intros [= _ <-] | discriminate].
Qed.

Lemma updateTransaction_error uid id data s e s' :
  updateTransaction uid id data s = (Error e, s') -> s' = s.
Proof.
  rewrite updateTransaction_run.
  destruct (noUser uid); [now intros [= _ <-] |].
  destruct (findUser (default "" uid) s); [| now intros [= _ <-]].
  destruct (findTransaction id (user_id u) s); [| now intros [= _ <-]].
  destruct (accounts s !! accountId data); [discriminate | now intros [= _ <-]].
Qed.

Lemma createTransaction_ok uid decision newId data s row s' :
  createTransaction uid decision newId data s = (Ok row, s') ->
  exists acc,
    accounts s !! accountId data = Some acc
    /\ transactions s !! newId = None
    /\ fields row = data
    /\ s' = setAccount (accountId data)
              {| account_userId := account_userId acc;
                 balance := balance acc + signed (type data) (amount data) |}
              (setTransaction newId row s).
Proof.
  rewrite createTransaction_run.
  destruct (noUser uid); [discriminate |].
  destruct decision as [| []]; try discriminate.
  destruct (findUser (default "" uid) s); [| discriminate].
  destruct (findAccount (accountId data) (user_id u) s) as [acc |] eqn:Ha;
    [| discriminate].
  apply findAccount_Some in Ha as [Ha _].
  destruct (transactions s !! newId) eqn:Hn; [discriminate |].
  intros [= <- <-]. exists acc. repeat split; assumption.
Qed.

Lemma updateTransaction_ok uid id data s row s' :
  updateTransaction uid id data s = (Ok row, s') ->
  exists acc original,
    accounts s !! accountId data = Some acc
    /\ transactions s !! id = Some original
    /\ fields row = data
    /\ s' = setAccount (accountId data)
              {| account_userId := account_userId acc;
                 balance :=
                   balance acc
                   + (signed (type data) (amount data)
                      - signed (type (fields original))
                          (amount (fields original))) |}
              (setTransaction id row s).
Proof.
  rewrite updateTransaction_run.
  destruct (noUser uid); [discriminate |].
  destruct (findUser (default "" uid) s); [| discriminate].
  destruct (findTransaction id (user_id u) s) as [original |] eqn:Ht;
    [| discriminate].
  destruct (accounts s !! accountId data) as [acc |] eqn:Ha; [| discriminate].
  intros [= <- <-]. exists acc, original. repeat split; try assumption.
  unfold findTransaction in Ht.
  destruct (transactions s !! id) as [t |]; [| discriminate].
  destruct (String.eqb (transaction_userId t) (user_id u)); congruence.
Qed.




(** The update path does not look at who owns the account it names: Asha
    can move her purchase to Ravi's account, whose balance then changes. *)
Example update_reaches_another_users_account :
  exists row s',
    updateTransaction (Some "clerk-1") "tx-1"
      {| type := EXPENSE; amount := 7000; description := "Grocery shopping";
         date := Some jan15_2024; category := "groceries";
         accountId := "account-9"; isRecurring := false;
         recurringInterval := None |} store1 = (Ok row, s')
    /\ findAccount "account-9" "user-1" store1 = None
    /\ balanceOf "account-9" store1 = Some 8000
    /\ balanceOf "account-9" s' = Some 6000.
Proof.
  eexists _, _. split; [vm_compute; reflexivity |].
  repeat split; reflexivity.
Qed.

(** ** [checkUser] *)

Lemma rowsIn_app mail l1 l2 :
  rowsIn mail (l1 ++ l2) = (rowsIn mail l1 + rowsIn mail l2)%nat.
Proof. unfold rowsIn. now rewrite List.filter_app, List.length_app. Qed.

Lemma rowsIn_updateFirst mail p f l :
  (forall u, email (f u) = email u) ->
  rowsIn mail (updateFirst p f l) = rowsIn mail l.
Proof.
  intros Hf. unfold rowsIn.
  induction l as [| u r IH]; [reflexivity |].
  simpl. destruct (p u); simpl.
  - rewrite Hf. now destruct (String.eqb (email u) mail).
  - destruct (String.eqb (email u) mail); simpl; now rewrite IH.
Qed.

Lemma rowsIn_find_None mail l :
  List.find (fun u => String.eqb (email u) mail) l = None ->
  rowsIn mail l = 0%nat.
Proof.
  unfold rowsIn. induction l as [| u r IH]; [reflexivity |].
  simpl. destruct (String.eqb (email u) mail); [discriminate | exact IH].
Qed.

Lemma rowsIn_find_Some mail l u :
  List.find (fun u => String.eqb (email u) mail) l = Some u ->
  email u = mail /\ (1 <= rowsIn mail l)%nat.
Proof.
  unfold rowsIn. induction l as [| w r IH]; [discriminate |].
  simpl. destruct (String.eqb (email w) mail) eqn:E.
  - intros [= <-]. split; [now apply String.eqb_eq | simpl; lia].
  - exact IH.
Qed.

Lemma updateFirst_In p f l u :
  List.find p l = Some u -> In (f u) (updateFirst p f l).
Proof.
  induction l as [| w r IH]; [discriminate |].
  simpl. destruct (p w).
  - intros [= <-]. now left.
  - intros H. right. now apply IH.
Qed.

(** What an upsert by email does to the rows: on failure nothing, and on
    success the row it returns is in the table under that email, no email
    has gained a row except where it had none. *)
Lemma user_upsert_rows mail update create s r s' :
  (forall u, email (update u) = email u) ->
  email create = mail ->
  user_upsert mail update create s = (r, s') ->
  match r with
  | Error _ => s' = s
  | Ok row =>
      In row (users s') /\ email row = mail
      /\ (row = create \/ exists old, In old (users s) /\ row = update old)
      /\ accounts s' = accounts s /\ transactions s' = transactions s
      /\ rowsWithEmail mail s' = Nat.max 1 (rowsWithEmail mail s)
      /\ forall other, other <> mail ->
           rowsWithEmail other s' = rowsWithEmail other s
  end.
Proof.
  intros Hup Hcr. unfold user_upsert.
  destruct (List.find _ (users s)) as [u |] eqn:Hfind.
  - destruct (List.existsb _ (users s)); intros [= <- <-]; [reflexivity |].
    destruct (rowsIn_find_Some mail _ _ Hfind) as [Hm Hc].
    split; [now apply updateFirst_In |].
    split; [now rewrite Hup |].
    split; [right; exists u; split; [| reflexivity];
            now apply List.find_some in Hfind |].
    split; [reflexivity |]. split; [reflexivity |].
    unfold rowsWithEmail. simpl.
    split.
    + rewrite rowsIn_updateFirst by exact Hup. lia.
    + intros other _. unfold rowsWithEmail. simpl.
      now apply rowsIn_updateFirst.
  - destruct (List.existsb _ (users s)); intros [= <- <-]; [reflexivity |].
    split; [simpl; apply List.in_or_app; right; now left |].
    split; [exact Hcr |]. split; [now left |].
    split; [reflexivity |]. split; [reflexivity |].
    unfold rowsWithEmail. simpl. rewrite rowsIn_app.
    rewrite (rowsIn_find_None mail _ Hfind).
    split.
    + unfold rowsIn. simpl. rewrite Hcr, String.eqb_refl. reflexivity.
    + intros other Hne. unfold rowsWithEmail. simpl.
      rewrite rowsIn_app. unfold rowsIn at 2. simpl. rewrite Hcr.
      destruct (String.eqb_spec mail other); [congruence | simpl; lia].
Qed.

Lemma checkUser_run u mail rest newId s :
  emailAddresses u = mail :: rest ->
  checkUser (Some u) newId s =
  let name := trim (default "" (firstName u) ++ " "
                    ++ default "" (lastName u)) in
  match user_upsert mail
          (fun w => {| user_id := user_id w; clerkUserId := clerk_id u;
                       email := email w; name := name;
                       imageUrl := clerk_imageUrl u |})
          {| user_id := newId; clerkUserId := clerk_id u; email := mail;
             name := name; imageUrl := clerk_imageUrl u |} s with
  | (Ok row, s') => (Ok (Some row), s')
  | (Error e, s') => (Error e, s')
  end.
Proof.
  intros E. unfold checkUser. rewrite E. unfold bind, ret. cbv zeta.
  now destruct (user_upsert _ _ _ s) as [[row | e] s'].
Qed.

(** One call never takes an email from at most one row to more. *)
Lemma checkUser_rows user newId s other :
  (rowsWithEmail other (snd (checkUser user newId s))
   <= Nat.max 1 (rowsWithEmail other s))%nat.
Proof.
  destruct user as [u |]; [| simpl; lia].
  destruct (emailAddresses u) as [| mail rest] eqn:E.
  - unfold checkUser. rewrite E. simpl. lia.
  - rewrite (checkUser_run _ _ _ _ _ E). cbv zeta.
    destruct (user_upsert _ _ _ s) as [[row | e] s'] eqn:U;
      apply user_upsert_rows in U; try reflexivity; simpl.
    + destruct U as (_ & _ & _ & _ & _ & Hsame & Hother).
      destruct (String.eqb_spec other mail) as [-> | Hne].
      * rewrite Hsame. lia.
      * rewrite (Hother _ Hne). lia.
    + subst s'. lia.
Qed.

Lemma checkUserCalls_rows calls s other :
  (rowsWithEmail other (checkUserCalls calls s)
   <= Nat.max 1 (rowsWithEmail other s))%nat.
Proof.
  revert s. induction calls as [| [user newId] calls IH]; intros s.
  - simpl. lia.
  - change (checkUserCalls ((user, newId) :: calls) s)
      with (checkUserCalls calls (snd (checkUser user newId s))).
    specialize (IH (snd (checkUser user newId s))).
    pose proof (checkUser_rows user newId s other). lia.
Qed.

Lemma rowsIn_unique mail l u w :
  (rowsIn mail l <= 1)%nat -> In u l -> In w l ->
  email u = mail -> email w = mail -> u = w.
Proof.
  unfold rowsIn. intros Hc Hu Hw Eu Ew.
  assert (Fu : In u (List.filter (fun x => String.eqb (email x) mail) l))
    by (apply List.filter_In; split; [exact Hu | now apply String.eqb_eq]).
  assert (Fw : In w (List.filter (fun x => String.eqb (email x) mail) l))
    by (apply List.filter_In; split; [exact Hw | now apply String.eqb_eq]).
  destruct (List.filter _ l) as [| a [| b r]]; simpl in *;
    [contradiction | | lia].
  destruct Fu as [<- | []], Fw as [<- | []]. reflexivity.
Qed.

(** When the write breaks no uniqueness rule, [checkUser] returns the row. *)
Lemma checkUser_succeeds u mail rest newId s :
  emailAddresses u = mail :: rest ->
  (rowsWithEmail mail s <= 1)%nat ->
  (forall w, In w (users s) -> clerkUserId w = clerk_id u -> email w = mail) ->
  (forall w, In w (users s) -> user_id w <> newId) ->
  exists row s', checkUser (Some u) newId s = (Ok (Some row), s').
Proof.
  intros E Huniq Hclerk Hid.
  rewrite (checkUser_run _ _ _ _ _ E). cbv zeta. unfold user_upsert.
  destruct (List.find _ (users s)) as [found |] eqn:Hfind.
  - destruct (List.existsb _ (users s)) eqn:X; [| eexists _, _; reflexivity].
    apply List.existsb_exists in X as (w & Hw & C). simpl in C.
    apply andb_true_iff in C as [C1 C2].
    apply String.eqb_eq in C1. apply negb_true_iff, String.eqb_neq in C2.
    destruct (rowsIn_find_Some _ _ _ Hfind) as [Ef _].
    apply List.find_some in Hfind as [Hin _].
    exfalso. apply C2. f_equal.
    apply (rowsIn_unique mail (users s)); auto.
  - destruct (List.existsb _ (users s)) eqn:X; [| eexists _, _; reflexivity].
    apply List.existsb_exists in X as (w & Hw & C). simpl in C.
    apply orb_true_iff in C as [C | C]; apply String.eqb_eq in C.
    + exfalso. specialize (Hclerk w Hw C).
      apply (List.find_none _ _ Hfind) in Hw. simpl in Hw.
      apply String.eqb_neq in Hw. contradiction.
    + exfalso. exact (Hid w Hw C).
Qed.

(** C10: with no signed-in user [checkUser] returns [null] and leaves the
    store as it is.  With a signed-in user it upserts by the user's first
    email address: a failed call writes nothing; a call that returns, returns
    a row that is in the table under that email with the identity's id, name
    and image, the email has one row if it had none and as many as before
    otherwise, and all other emails keep their rows; the call does return
    whenever the write breaks no uniqueness rule.  So whatever the sequence
    of calls, no email that had at most one row ever gets a second one.  (A
    signed-in user without any email address makes the call throw, nothing
    written.) *)
Theorem checkUser_upserts_by_email :
  (forall newId s, checkUser None newId s = (Ok None, s))
  /\ (forall u mail rest newId s r s',
         emailAddresses u = mail :: rest ->
         checkUser (Some u) newId s = (r, s') ->
         match r with
         | Error _ => s' = s
         | Ok dbUser =>
             exists row,
               dbUser = Some row /\ In row (users s')
               /\ email row = mail
               /\ clerkUserId row = clerk_id u
               /\ name row = trim (default "" (firstName u) ++ " "
                                   ++ default "" (lastName u))
               /\ imageUrl row = clerk_imageUrl u
               /\ accounts s' = accounts s
               /\ transactions s' = transactions s
               /\ rowsWithEmail mail s' = Nat.max 1 (rowsWithEmail mail s)
               /\ forall other, other <> mail ->
                    rowsWithEmail other s' = rowsWithEmail other s
         end)
  /\ (forall u mail rest newId s,
         emailAddresses u = mail :: rest ->
         (rowsWithEmail mail s <= 1)%nat ->
         (forall w, In w (users s) -> clerkUserId w = clerk_id u ->
                    email w = mail) ->
         (forall w, In w (users s) -> user_id w <> newId) ->
         exists row s', checkUser (Some u) newId s = (Ok (Some row), s'))
  /\ (forall calls s mail,
         (rowsWithEmail mail s <= 1)%nat ->
         (rowsWithEmail mail (checkUserCalls calls s) <= 1)%nat)
  /\ (forall u newId s,
         emailAddresses u = [] ->
         checkUser (Some u) newId s = (Error typeError, s)).
Proof.
  split; [reflexivity |].
  split; [| split; [exact checkUser_succeeds | split]];
    [| | intros u newId s E; unfold checkUser; now rewrite E].
  - intros u mail rest newId s r s' E.
    rewrite (checkUser_run _ _ _ _ _ E). cbv zeta.
    destruct (user_upsert _ _ _ s) as [[row | e] s0] eqn:U;
      intros [= <- <-]; apply user_upsert_rows in U; try reflexivity.
    + destruct U as (Hin & Hmail & Hrow & Ha & Ht & Hsame & Hother).
      exists row. repeat split; try assumption;
        destruct Hrow as [-> | (old & _ & ->)]; reflexivity.
    + exact U.
  - intros calls s mail H.
    pose proof (checkUserCalls_rows calls s mail). lia.
Qed.

(** Asha signs in twice; the second time Clerk shows a new picture. *)
Lemma checkUser_upserts_by_email_witness :
  (rowsWithEmail "asha@example.com" store0 <= 1)%nat
  /\ (rowsWithEmail "asha@example.com"
        (checkUserCalls
           [(Some ashaAtClerk, "user-3");
            (Some {| clerk_id := "clerk-1";
                     emailAddresses := ["asha@example.com"];
                     firstName := Some "Asha"; lastName := Some "Rao";
                     clerk_imageUrl := "b.png" |}, "user-4")]
           store0) <= 1)%nat
  /\ (exists row s',
         checkUser (Some ashaAtClerk) "user-3" store0 = (Ok (Some row), s'))
  /\ match fst (checkUser (Some ashaAtClerk) "user-3" store0) with
     | Error _ => False
     | Ok dbUser =>
         exists row, dbUser = Some row /\ name row = "Asha"
                     /\ imageUrl row = "a.png" /\ user_id row = "user-1"
     end.
Proof.
  pose proof checkUser_upserts_by_email as (_ & H2 & H3 & H4 & _).
  assert (H : (rowsWithEmail "asha@example.com" store0 <= 1)%nat)
    by (vm_compute; lia).
  split; [exact H |]. split; [apply H4; exact H |]. split.
  - apply (H3 ashaAtClerk "asha@example.com" []); [reflexivity | exact H | |].
    + intros w [<- | [<- | []]]; [reflexivity | discriminate].
    + intros w [<- | [<- | []]]; discriminate.
  - specialize (H2 ashaAtClerk "asha@example.com" [] "user-3" store0
                  (fst (checkUser (Some ashaAtClerk) "user-3" store0))
                  (snd (checkUser (Some ashaAtClerk) "user-3" store0))
                  eq_refl (surjective_pairing _)).
    destruct (fst (checkUser (Some ashaAtClerk) "user-3" store0)) as [dbUser |] eqn:E;
      [| vm_compute in E; discriminate E].
    destruct H2 as (row & -> & _ & _ & _ & Hn & Hi & _).
    exists row. vm_compute in E. injection E as <-.
    repeat split; reflexivity.
Defined.

(** ** [JSON.parse] never runs out of fuel *)

Lemma skip_ws_length s : (String.length (skip_ws s) <= String.length s)%nat.
Proof.
  induction s as [| c r IH]; [reflexivity |].
  simpl. destruct (_ || _); simpl; lia.
Qed.

Lemma stringChars_length s l r :
  stringChars s = Some (l, r) -> (String.length r < String.length s)%nat.
Proof.
  remember (String.length s) as n eqn:Hn.
  assert (Hle : (String.length s <= n)%nat) by lia. clear Hn.
  revert s l r Hle. induction n as [| n IH]; intros s l r Hle.
  - destruct s; [discriminate | simpl in Hle; lia].
  - destruct s as [| c s1]; [discriminate |]. simpl in Hle. simpl stringChars.
    destruct (isChar dquote c); [intros [= _ <-]; simpl; lia |].
    destruct (isChar "\" c).
    + destruct s1 as [| e s2]; [discriminate |]. simpl in Hle.
      destruct (simpleEscape e).
      * destruct (stringChars s2) as [[l' r'] |] eqn:E; [| discriminate].
        intros [= _ <-]. apply IH in E; [simpl; lia | lia].
      * destruct (isChar "u" e); [| discriminate].
        destruct s2 as [| h1 [| h2 [| h3 [| h4 s6]]]]; try discriminate.
        simpl in Hle.
        destruct (hex4 h1 h2 h3 h4); [| discriminate].
        destruct (stringChars s6) as [[l' r'] |] eqn:E; [| discriminate].
        intros [= _ <-]. apply IH in E; [simpl; lia | lia].
    + destruct (code c <? 32)%Z; [discriminate |].
      destruct (stringChars s1) as [[l' r'] |] eqn:E; [| discriminate].
      intros [= _ <-]. apply IH in E; [simpl; lia | lia].
Qed.

Lemma strip_prefix_length p s r :
  strip_prefix p s = Some r -> String.length s = (String.length p + String.length r)%nat.
Proof.
  revert s. induction p as [| a p IH]; intros s; simpl.
  - now intros [= ->].
  - destruct s as [| b s]; [discriminate |].
    destruct (Ascii.eqb a b); [| discriminate].
    intros H. apply IH in H. simpl. lia.
Qed.

Lemma digits_length base s acc n v k r :
  digits base s acc n = (v, k, r) -> (String.length r <= String.length s)%nat.
Proof.
  revert acc n. induction s as [| c s IH]; intros acc n; simpl.
  - now intros [= _ _ <-].
  - destruct (digitValue base c).
    + intros H. apply IH in H. lia.
    + intros [= _ _ <-]. simpl. lia.
Qed.

Lemma exponentPart_length s e r :
  exponentPart s = Some (e, r) -> (String.length r <= String.length s)%nat.
Proof.
  unfold exponentPart. destruct s as [| c s]; [now intros [= _ <-] |].
  destruct (_ || _); [| now intros [= _ <-]].
  destruct s as [| sg s'].
  - simpl. discriminate.
  - destruct (isChar "-" sg); [| destruct (isChar "+" sg)];
      (destruct (digits 10 _ 0 0) as [[v k] r2] eqn:D;
       destruct (k =? 0)%Z; [discriminate |];
       intros [= _ <-]; apply digits_length in D; simpl in *; lia).
Qed.

Lemma jsonNumber_fuel s : jsonNumber s <> OutOfFuel.
Proof.
  unfold jsonNumber.
  destruct (match s with EmptyString => _ | String c r => _ end) as [neg s1].
  destruct s1 as [| c r]; [discriminate |].
  destruct (negb (isDigit c)); [discriminate |].
  destruct (if isChar "0" c then _ else _) as [i r1].
  destruct (match r1 with EmptyString => _ | String dot r' => _ end)
    as [[[m nf] r2] |]; [| discriminate].
  destruct (exponentPart r2) as [[e r3] |]; discriminate.
Qed.

Lemma isDigit_digitValue c : isDigit c = true -> exists v, digitValue 10 c = Some v.
Proof.
  unfold isDigit, digitValue. intros H. cbv zeta. rewrite H.
  apply andb_true_iff in H as [H1 H2]. apply Z.leb_le in H1, H2.
  destruct (code c - 48 <? 10)%Z eqn:E; [eauto | apply Z.ltb_ge in E; lia].
Qed.

Lemma jsonNumber_length s v r :
  jsonNumber s = Parsed v r -> (String.length r < String.length s)%nat.
Proof.
  unfold jsonNumber.
  destruct (match s with EmptyString => _ | String c r => _ end)
    as [neg s1] eqn:Es.
  assert (Hs1 : (String.length s1 <= String.length s)%nat).
  { destruct s as [| c0 r0]; [now injection Es as _ <- |].
    destruct (isChar "-" c0); injection Es as _ <-; simpl; lia. }
  destruct s1 as [| c r0]; [discriminate |].
  destruct (negb (isDigit c)) eqn:Ed; [discriminate |].
  apply negb_false_iff in Ed.
  destruct (if isChar "0" c then _ else _) as [i r1] eqn:Ei.
  assert (Hr1 : (String.length r1 < String.length (String c r0))%nat).
  { destruct (isChar "0" c); [injection Ei as _ <-; simpl; lia |].
    destruct (digits 10 (String c r0) 0 0) as [[v0 k0] r'] eqn:D.
    injection Ei as _ <-. simpl in D.
    destruct (isDigit_digitValue c Ed) as [dv Hdv]. rewrite Hdv in D.
    apply digits_length in D. simpl. lia. }
  destruct (match r1 with EmptyString => _ | String dot r' => _ end)
    as [[[m nf] r2] |] eqn:Ef; [| discriminate].
  assert (Hr2 : (String.length r2 <= String.length r1)%nat).
  { destruct r1 as [| dot r']; [now injection Ef as _ _ <- |].
    destruct (isChar "." dot); [| now injection Ef as _ _ <-].
    destruct (digits 10 r' i 0) as [[m' nf'] r2'] eqn:D.
    destruct (nf' =? 0)%Z; [discriminate |]. injection Ef as _ _ <-.
    apply digits_length in D. simpl. lia. }
  destruct (exponentPart r2) as [[e r3] |] eqn:Ee; [| discriminate].
  intros [= _ <-]. apply exponentPart_length in Ee. lia.
Qed.

Lemma literal_fuel p v s : literal p v s <> OutOfFuel.
Proof. unfold literal. destruct (strip_prefix p s); discriminate. Qed.

Lemma literal_length p v s v' r :
  literal p v s = Parsed v' r -> (String.length s = String.length p + String.length r)%nat.
Proof.
  unfold literal. destruct (strip_prefix p s) eqn:E; [| discriminate].
  intros [= _ <-]. now apply strip_prefix_length.
Qed.

Lemma json_fuel f :
  (forall s, (2 * String.length s < f)%nat ->
     jsonValue f s <> OutOfFuel
     /\ forall v r, jsonValue f s = Parsed v r -> (String.length r < String.length s)%nat)
  /\ (forall acc s, (2 * String.length s + 1 < f)%nat ->
        jsonElements f acc s <> OutOfFuel
        /\ forall l r, jsonElements f acc s = Parsed l r -> (String.length r < String.length s)%nat)
  /\ (forall acc s, (2 * String.length s + 1 < f)%nat ->
        jsonMembers f acc s <> OutOfFuel
        /\ forall l r, jsonMembers f acc s = Parsed l r -> (String.length r < String.length s)%nat).
Proof.
  induction f as [| f (IHv & IHe & IHm)].
  - repeat split; intros; lia.
  - split; [| split].
    + intros s Hf. destruct s as [| c r]; [split; [discriminate | discriminate] |].
      simpl in Hf. simpl jsonValue.
      destruct (isChar "{" c).
      { pose proof (skip_ws_length r) as Hw.
        destruct (skip_ws r) as [| c' r'] eqn:Er; [split; discriminate |].
        simpl in Hw.
        destruct (isChar "}" c'); [split; [discriminate | intros v r0 [= _ <-]; simpl; lia] |].
        destruct (IHm [] (String c' r') ltac:(simpl; lia)) as [Hm1 Hm2].
        destruct (jsonMembers f [] (String c' r')) as [l rest | |] eqn:Em;
          [| split; discriminate | congruence].
        split; [discriminate |]. intros v r0 [= _ <-].
        specialize (Hm2 _ _ eq_refl). simpl in *. lia. }
      destruct (isChar "[" c).
      { pose proof (skip_ws_length r) as Hw.
        destruct (skip_ws r) as [| c' r'] eqn:Er; [split; discriminate |].
        simpl in Hw.
        destruct (isChar "]" c'); [split; [discriminate | intros v r0 [= _ <-]; simpl; lia] |].
        destruct (IHe [] (String c' r') ltac:(simpl; lia)) as [He1 He2].
        destruct (jsonElements f [] (String c' r')) as [l rest | |] eqn:Ee;
          [| split; discriminate | congruence].
        split; [discriminate |]. intros v r0 [= _ <-].
        specialize (He2 _ _ eq_refl). simpl in *. lia. }
      destruct (isChar dquote c).
      { destruct (stringChars r) as [[l rest] |] eqn:Es; [| split; discriminate].
        split; [discriminate |]. intros v r0 [= _ <-].
        apply stringChars_length in Es. simpl. lia. }
      destruct (isChar "t" c).
      { split; [apply literal_fuel |]. intros v r0 H.
        apply literal_length in H. simpl in *. lia. }
      destruct (isChar "f" c).
      { split; [apply literal_fuel |]. intros v r0 H.
        apply literal_length in H. simpl in *. lia. }
      destruct (isChar "n" c).
      { split; [apply literal_fuel |]. intros v r0 H.
        apply literal_length in H. simpl in *. lia. }
      split; [apply jsonNumber_fuel |]. intros v r0 H.
      apply jsonNumber_length in H. simpl in *. lia.
    + intros acc s Hf. simpl jsonElements.
      pose proof (skip_ws_length s) as Hw.
      destruct (IHv (skip_ws s) ltac:(lia)) as [Hv1 Hv2].
      destruct (jsonValue f (skip_ws s)) as [v r | |] eqn:Ev;
        [| split; discriminate | congruence].
      specialize (Hv2 _ _ eq_refl).
      pose proof (skip_ws_length r) as Hw'.
      destruct (skip_ws r) as [| c r'] eqn:Er; [split; discriminate |].
      simpl in Hw'.
      destruct (isChar "," c).
      { destruct (IHe (v :: acc) r' ltac:(lia)) as [He1 He2].
        split; [exact He1 |]. intros l r0 H. apply He2 in H. lia. }
      destruct (isChar "]" c); [| split; discriminate].
      split; [discriminate |]. intros l r0 [= _ <-]. lia.
    + intros acc s Hf. simpl jsonMembers.
      pose proof (skip_ws_length s) as Hw.
      destruct (skip_ws s) as [| q r] eqn:Es; [split; discriminate |].
      simpl in Hw.
      destruct (negb (isChar dquote q)); [split; discriminate |].
      destruct (stringChars r) as [[k r1] |] eqn:Ek; [| split; discriminate].
      apply stringChars_length in Ek.
      pose proof (skip_ws_length r1) as Hw1.
      destruct (skip_ws r1) as [| colon r2] eqn:E1; [split; discriminate |].
      simpl in Hw1.
      destruct (negb (isChar ":" colon)); [split; discriminate |].
      pose proof (skip_ws_length r2) as Hw2.
      destruct (IHv (skip_ws r2) ltac:(lia)) as [Hv1 Hv2].
      destruct (jsonValue f (skip_ws r2)) as [v r3 | |] eqn:Ev;
        [| split; discriminate | congruence].
      specialize (Hv2 _ _ eq_refl).
      pose proof (skip_ws_length r3) as Hw3.
      destruct (skip_ws r3) as [| c r4] eqn:E3; [split; discriminate |].
      simpl in Hw3.
      destruct (isChar "," c).
      { destruct (IHm ((stringText k, v) :: acc) r4 ltac:(lia)) as [Hm1 Hm2].
        split; [exact Hm1 |]. intros l r0 H. apply Hm2 in H. lia. }
      destruct (isChar "}" c); [| split; discriminate].
      split; [discriminate |]. intros l r0 [= _ <-]. lia.
Qed.

(** The fuel [JSON_parse] supplies is never used up: [None] is a syntax
    error. *)
Lemma JSON_parse_fuel s : jsonValue (parseFuel s) s <> OutOfFuel.
Proof.
  apply (proj1 (json_fuel (parseFuel s))). unfold parseFuel. lia.
Qed.

Lemma JSON_parse_None s :
  JSON_parse s = None ->
  jsonValue (parseFuel (skip_ws s)) (skip_ws s) = SyntaxError
  \/ exists v r,
       jsonValue (parseFuel (skip_ws s)) (skip_ws s) = Parsed v r
       /\ skip_ws r <> "".
Proof.
  unfold JSON_parse. cbv zeta.
  pose proof (JSON_parse_fuel (skip_ws s)) as F.
  destruct (jsonValue _ (skip_ws s)) as [v r | |]; [| now left | congruence].
  intros H. right. exists v, r. split; [reflexivity |].
  destruct (skip_ws r); [discriminate H | discriminate].
Qed.

(** ** Receipt scanning *)

(** What the model is sent plays no part in how its answer is read. *)
Lemma scanReceipt_reply reply file1 file2 :
  scanReceipt (fun _ _ => reply) file1 = scanReceipt (fun _ _ => reply) file2.
Proof. unfold scanReceipt. cbv beta. reflexivity. Qed.

Lemma largeImage_length :
  fiveMB < Z.of_nat (List.length (file_bytes largeImage)).
Proof.
  change (file_bytes largeImage)
    with (List.repeat Byte.xff (N.to_nat 5242881)).
  rewrite List.repeat_length, N_nat_Z. reflexivity.
Qed.




(** *** Code fences *)

Lemma removeFences_other c s :
  isChar "`" c = false -> removeFences (String c s) = String c (removeFences s).
Proof.
  intros H. simpl.
  destruct s as [| c2 [| c3 s3]]; try reflexivity.
  now rewrite H.
Qed.

Lemma removeFences_closing body :
  noBacktick body = true -> removeFences (body ++ "```") = body.
Proof.
  induction body as [| c r IH]; [reflexivity |].
  simpl noBacktick. intros H. apply andb_true_iff in H as [Hc Hr].
  apply negb_true_iff in Hc.
  change (String c r ++ "```") with (String c (r ++ "```")).
  rewrite removeFences_other by exact Hc. now rewrite IH.
Qed.

Lemma removeFences_opening_json s :
  removeFences ("```json" ++ s) = removeFences s.
Proof. reflexivity. Qed.

Lemma removeFences_opening_line s :
  removeFences ("```" ++ newline ++ s) = String (chr 10) (removeFences s).
Proof.
  change ("```" ++ newline ++ s)
    with (String (chr 96) (String (chr 96) (String (chr 96)
            (String (chr 10) s)))).
  destruct s as [| a [| b [| c r]]]; try reflexivity.
Qed.

Lemma trim_leading_newline s : trim (newline ++ s) = trim s.
Proof. reflexivity. Qed.

Lemma rev_onto_app s t acc : rev_onto (s ++ t) acc = rev_onto t (rev_onto s acc).
Proof.
  revert acc. induction s as [| c r IH]; intros acc; [reflexivity |].
  simpl. apply IH.
Qed.

Lemma trimEnd_newline s : trimEnd (s ++ newline) = trimEnd s.
Proof.
  unfold trimEnd, rev_string. rewrite rev_onto_app. reflexivity.
Qed.

Lemma ws2_newline c : ws2 c (chr 10) = false.
Proof. unfold ws2. apply andb_false_r. Qed.

Lemma ws3_newline c1 c2 : ws3 c1 c2 (chr 10) = false.
Proof.
  unfold ws3. cbv zeta. change (code (chr 10)) with 10.
  destruct (code c1 =? 225)%Z, (code c1 =? 226)%Z, (code c1 =? 227)%Z,
    (code c1 =? 239)%Z, (code c2 =? 154)%Z, (code c2 =? 128)%Z,
    (code c2 =? 129)%Z, (code c2 =? 187)%Z; reflexivity.
Qed.

(** A newline at the end does not survive [trim]. *)
Lemma trim_trailing_newline s : trim (s ++ newline) = trim s.
Proof.
  unfold trim.
  remember (String.length s) as n eqn:Hn.
  assert (Hle : (String.length s <= n)%nat) by lia. clear Hn.
  revert s Hle. induction n as [| n IH]; intros s Hle.
  - destruct s; [reflexivity | simpl in Hle; lia].
  - destruct s as [| c1 s1]; [reflexivity |].
    simpl in Hle.
    change ((String c1 s1 ++ newline)%string)
      with (String c1 (s1 ++ newline)).
    simpl trimStart. destruct (ws1 c1); [apply IH; lia |].
    destruct s1 as [| c2 s2].
    + simpl. rewrite ws2_newline.
      apply (trimEnd_newline (String c1 EmptyString)).
    + simpl in Hle.
      change ((String c2 s2 ++ newline)%string)
        with (String c2 (s2 ++ newline)).
      cbv iota beta. destruct (ws2 c1 c2); [apply IH; lia |].
      destruct s2 as [| c3 s3].
      * simpl. rewrite ws3_newline.
        apply (trimEnd_newline (String c1 (String c2 EmptyString))).
      * simpl in Hle.
        change ((String c3 s3 ++ newline)%string)
          with (String c3 (s3 ++ newline)).
        cbv iota beta. destruct (ws3 c1 c2 c3); [apply IH; lia |].
        apply (trimEnd_newline (String c1 (String c2 (String c3 s3)))).
Qed.

Lemma append_cons c (s t : string) : String c s ++ t = String c (s ++ t).
Proof. reflexivity. Qed.

Lemma append_assoc (a b c : string) : a ++ (b ++ c) = (a ++ b) ++ c.
Proof.
  induction a as [| x a IH]; [reflexivity |].
  now rewrite !append_cons, IH.
Qed.

Lemma noBacktick_newline body :
  noBacktick body = true -> noBacktick (body ++ newline) = true.
Proof.
  induction body as [| c r IH]; [reflexivity |].
  rewrite append_cons. simpl. intros H.
  apply andb_true_iff in H as [-> Hr]. now rewrite IH.
Qed.

(** A fenced block is read as its body. *)
Lemma cleanText_fenced body :
  noBacktick body = true ->
  cleanText ("```json" ++ body ++ "```") = trim body
  /\ cleanText ("```json" ++ newline ++ body ++ newline ++ "```") = trim body
  /\ cleanText ("```" ++ newline ++ body ++ newline ++ "```") = trim body.
Proof.
  intros H. pose proof (noBacktick_newline body H) as Hn.
  unfold cleanText. repeat split.
  - now rewrite removeFences_opening_json, removeFences_closing.
  - rewrite removeFences_opening_json.
    replace (newline ++ body ++ newline ++ "```")
      with ((newline ++ (body ++ newline)) ++ "```")
      by (now rewrite <- !append_assoc).
    rewrite removeFences_closing by exact Hn.
    rewrite trim_leading_newline. apply trim_trailing_newline.
  - rewrite removeFences_opening_line.
    rewrite (append_assoc body), removeFences_closing by exact Hn.
    change (String (chr 10) (body ++ newline))
      with (newline ++ (body ++ newline)).
    rewrite trim_leading_newline. apply trim_trailing_newline.
Qed.

(** C6, as the code has it: the text of the model has every code-fence
    marker (three backticks, with a [json] that follows them) removed and is
    then trimmed, so a fenced block is read as its body.  When what is left is
    empty or is exactly [{}] the result is the empty result; when what is
    left does not parse as JSON the scan fails with "Failed to scan receipt".
    The fenced empty object gives the empty result. *)
Theorem scanReceipt_empty_or_failed :
  (forall generateContent file text,
      generateContent (inlineDataOf file) prompt = Some text ->
      (cleanText text = "" \/ cleanText text = "{}" ->
       scanReceipt generateContent file = Ok EmptyResult)
      /\ (cleanText text <> "" -> cleanText text <> "{}" ->
          JSON_parse (cleanText text) = None ->
          scanReceipt generateContent file = Error scanFailed))
  /\ (forall body,
         noBacktick body = true ->
         cleanText ("```json" ++ body ++ "```") = trim body
         /\ cleanText ("```json" ++ newline ++ body ++ newline ++ "```")
            = trim body
         /\ cleanText ("```" ++ newline ++ body ++ newline ++ "```")
            = trim body)
  /\ cleanText fencedEmpty = "{}"
  /\ (forall file,
         scanReceipt (fun _ _ => Some fencedEmpty) file = Ok EmptyResult).
Proof.
  split; [| split; [exact cleanText_fenced | split]].
  - intros g file text E. unfold scanReceipt. rewrite E. cbv zeta. split.
    + intros [-> | ->]; reflexivity.
    + intros H1 H2 HP. rewrite HP.
      destruct (String.eqb_spec (cleanText text) "{}") as [| _]; [congruence |].
      destruct (cleanText text); [congruence | reflexivity].
  - vm_compute. reflexivity.
  - intros file. rewrite (scanReceipt_reply _ file receiptImage).
    vm_compute. reflexivity.
Qed.

Lemma scanReceipt_empty_or_failed_witness :
  scanReceipt (fun _ _ => Some "``` {} ```") receiptImage = Ok EmptyResult
  /\ scanReceipt (fun _ _ => Some "```json no receipt here```") receiptImage
     = Error scanFailed
  /\ cleanText ("```json" ++ newline ++ refundJson ++ newline ++ "```")
     = trim refundJson.
Proof.
  pose proof scanReceipt_empty_or_failed as (H1 & H2 & _).
  split; [| split].
  - apply (proj1 (H1 (fun _ _ => Some "``` {} ```") receiptImage
                    "``` {} ```" eq_refl)).
    right. vm_compute. reflexivity.
  - apply (proj2 (H1 (fun _ _ => Some "```json no receipt here```")
                    receiptImage "```json no receipt here```" eq_refl));
      vm_compute; first [discriminate | reflexivity].
  - apply (H2 refundJson). vm_compute. reflexivity.
Defined.

(** C6, counterexample: a reply that is not JSON makes the scan fail, it
    does not give the empty result; and an empty object written with a space
    inside is read as a receipt with no fields. *)
Lemma unparsable_reply_fails :
  JSON_parse (cleanText "not json") = None
  /\ scanReceipt (fun _ _ => Some "not json") receiptImage = Error scanFailed
  /\ JSON_parse (cleanText "{ }") = Some (JObject [])
  /\ scanReceipt (fun _ _ => Some "{ }") receiptImage
     = Ok (Scanned blankReceipt).
Proof. repeat split; vm_compute; reflexivity. Qed.

(** *** The fields of a scanned receipt *)

Lemma twoDigits_range a b n : twoDigits a b = Some n -> (0 <= n <= 99)%Z.
Proof.
  unfold twoDigits, isDigit.
  destruct (_ && _) eqn:E; [| discriminate]. intros [= <-].
  apply andb_true_iff in E as [Ea Eb].
  apply andb_true_iff in Ea as [A1 A2]. apply andb_true_iff in Eb as [B1 B2].
  apply Z.leb_le in A1, A2, B1, B2. lia.
Qed.

(** A date written [YYYY-MM-DD] is read as midnight UTC of that day. *)
Lemma isoDate_sound s t :
  isoDate s = Some t ->
  TimeClip t = Some t /\ TimeWithinDay t = 0%Z
  /\ exists y m d,
       fieldsOf t = (y, m, d)
       /\ (0 <= y <= 9999)%Z /\ (0 <= m < 12)%Z
       /\ (1 <= d <= DaysInMonth y m)%Z.
Proof.
  unfold isoDate.
  destruct s as [| y1 [| y2 [| y3 [| y4 [| d1 [| m1 [| m2 [| d2 [| t1 [| t2 r]]]]]]]]]];
    try discriminate.
  destruct r; [| discriminate].
  destruct (twoDigits y1 y2) as [yh |] eqn:Eyh; [| discriminate].
  destruct (twoDigits y3 y4) as [yl |] eqn:Eyl; [| discriminate].
  destruct (twoDigits m1 m2) as [m |] eqn:Em; [| discriminate].
  destruct (twoDigits t1 t2) as [d |] eqn:Ed; [| discriminate].
  simpl. destruct (_ && _) eqn:C; [| discriminate]. intros [= <-].
  repeat (apply andb_true_iff in C as [C ?]).
  repeat match goal with H : (_ <=? _)%Z = true |- _ => apply Z.leb_le in H end.
  apply twoDigits_range in Eyh, Eyl.
  set (y := (yh * 100 + yl)%Z) in *.
  assert (F : fieldsOf (MakeDate (MakeDay y (m - 1) d) 0) = (y, (m - 1)%Z, d))
    by (apply fields_of_MakeDay; unfold msPerDay; lia).
  split; [| split].
  - apply TimeClip_in_range.
    assert (Hday : Day (MakeDate (MakeDay y (m - 1) d) 0) = MakeDay y (m - 1) d)
      by (apply Day_MakeDate; unfold msPerDay; lia).
    rewrite MakeDay_normal in * by lia.
    pose proof (DaysBeforeMonth_bound y (m - 1) d ltac:(lia) ltac:(lia)) as B.
    pose proof (DaysInYear_cases y) as Y.
    assert (D : (-719528 <= DayFromYear y <= 2932532)%Z).
    { unfold DayFromYear. Z.div_mod_to_equations. lia. }
    unfold MakeDate, maxTime, msPerDay. lia.
  - apply TimeWithinDay_MakeDate. unfold msPerDay. lia.
  - exists y, (m - 1)%Z, d. repeat split; try assumption; lia.
Qed.

Lemma receiptOf_object members :
  receiptOf (JObject members) =
  Some {| receipt_amount :=
            ToNumber (default JUndefined (lookupMember "amount" members));
          receipt_date :=
            (let d := default JUndefined (lookupMember "date" members) in
             if ToBoolean d then Some (newDate d) else None);
          receipt_description :=
            nullish (default JUndefined (lookupMember "description" members))
              (JString "");
          receipt_merchantName :=
            nullish (default JUndefined (lookupMember "merchantName" members))
              (JString "");
          receipt_category :=
            nullish (default JUndefined (lookupMember "category" members))
              (JString "other-expense") |}.
Proof. reflexivity. Qed.




(** * Further properties *)

(** ** Reading transactions *)

Lemma serializeAmount_id t : serializeAmount t = t.
Proof. now destruct t. Qed.

(** What [getTransaction] does, case by case. *)
Lemma getTransaction_run uid id s :
  getTransaction uid id s =
  if noUser uid then (Error "Unauthorized", s) else
  match findUser (default "" uid) s with
  | None => (Error "User not found", s)
  | Some user =>
      match findTransaction id (user_id user) s with
      | None => (Error "Transaction not found", s)
      | Some t => (Ok t, s)
      end
  end.
Proof.
  unfold getTransaction. destruct (noUser uid); [reflexivity |].
  unfold bind at 1, user_findUnique.
  destruct (findUser (default "" uid) s) as [user |]; [| reflexivity].
  unfold bind, transaction_findUnique.
  destruct (findTransaction id (user_id user) s) as [t |]; [| reflexivity].
  unfold ret. now rewrite serializeAmount_id.
Qed.

Lemma findTransaction_Some id uid s t :
  findTransaction id uid s = Some t ->
  transactions s !! id = Some t /\ transaction_userId t = uid.
Proof.
  unfold findTransaction. destruct (transactions s !! id) as [x |]; [| discriminate].
  destruct (String.eqb_spec (transaction_userId x) uid); [| discriminate].
  now intros [= <-].
Qed.

Lemma findTransaction_other id uid s t :
  transactions s !! id = Some t -> transaction_userId t <> uid ->
  findTransaction id uid s = None.
Proof.
  intros H N. unfold findTransaction. rewrite H.
  now destruct (String.eqb_spec (transaction_userId t) uid).
Qed.

(** X1: [getTransaction] never writes, and it returns a row only to the
    user the row belongs to: what it returns is the row stored under the id,
    owned by the caller; the owner does get the row, and for a row of
    somebody else the answer is "Transaction not found", the same as for a
    row that does not exist. *)
Theorem getTransaction_returns_own_rows_only :
  (forall uid id s r s',
      getTransaction uid id s = (r, s') ->
      s' = s
      /\ forall row, r = Ok row ->
           exists user,
             noUser uid = false
             /\ findUser (default "" uid) s = Some user
             /\ transactions s !! id = Some row
             /\ transaction_userId row = user_id user)
  /\ (forall uid user id row s,
         noUser (Some uid) = false ->
         findUser uid s = Some user ->
         transactions s !! id = Some row ->
         transaction_userId row = user_id user ->
         getTransaction (Some uid) id s = (Ok row, s))
  /\ (forall uid user id row s,
         noUser (Some uid) = false ->
         findUser uid s = Some user ->
         transactions s !! id = Some row ->
         transaction_userId row <> user_id user ->
         getTransaction (Some uid) id s = (Error "Transaction not found", s))
  /\ (forall uid user id s,
         noUser (Some uid) = false ->
         findUser uid s = Some user ->
         transactions s !! id = None ->
         getTransaction (Some uid) id s = (Error "Transaction not found", s)).
Proof.
  split; [| split; [| split]].
  - intros uid id s r s'. rewrite getTransaction_run.
    destruct (noUser uid) eqn:Hu; [intros [= <- <-]; split; [reflexivity | discriminate] |].
    destruct (findUser (default "" uid) s) as [user |] eqn:Hf;
      [| intros [= <- <-]; split; [reflexivity | discriminate]].
    destruct (findTransaction id (user_id user) s) as [t |] eqn:Ht;
      intros [= <- <-]; (split; [reflexivity |]); [| discriminate].
    intros row [= <-]. apply findTransaction_Some in Ht as [Ht Ho].
    exists user. repeat split; assumption.
  - intros uid user id row s Hu Hf Ht Ho.
    rewrite getTransaction_run, Hu. simpl default.
    now rewrite Hf, (findTransaction_owned _ _ _ _ Ht Ho).
  - intros uid user id row s Hu Hf Ht Ho.
    rewrite getTransaction_run, Hu. simpl default.
    now rewrite Hf, (findTransaction_other _ _ _ _ Ht Ho).
  - intros uid user id s Hu Hf Ht.
    rewrite getTransaction_run, Hu. simpl default. rewrite Hf.
    unfold findTransaction. now rewrite Ht.
Qed.

(** Asha reads her purchase; Ravi, asking for the same id, is told there is
    no such transaction, and so is Asha for an id that is not there. *)
Lemma getTransaction_returns_own_rows_only_witness :
  getTransaction (Some "clerk-1") "tx-1" store2 = (Ok storedGroceries, store2)
  /\ getTransaction (Some "clerk-2") "tx-1" store2
     = (Error "Transaction not found", store2)
  /\ getTransaction (Some "clerk-1") "tx-404" store2
     = (Error "Transaction not found", store2).
Proof.
  pose proof getTransaction_returns_own_rows_only as (_ & H2 & H3 & H4).
  split; [| split].
  - apply (H2 "clerk-1" asha); reflexivity.
  - apply (H3 "clerk-2" ravi "tx-1" storedGroceries);
      [reflexivity | reflexivity | reflexivity | discriminate].
  - apply (H4 "clerk-1" asha); reflexivity.
Defined.

Lemma findUser_setAccount c id row s :
  findUser c (setAccount id row s) = findUser c s.
Proof. reflexivity. Qed.

Lemma findUser_setTransaction c id row s :
  findUser c (setTransaction id row s) = findUser c s.
Proof. reflexivity. Qed.



Lemma dateLeb_total a b : dateLeb a b = true \/ dateLeb b a = true.
Proof.
  destruct a as [x |], b as [y |]; simpl; auto.
  destruct (Z.leb_spec x y); [now left | right]. apply Z.leb_le. lia.
Qed.

Lemma dateLeb_trans a b c :
  dateLeb a b = true -> dateLeb b c = true -> dateLeb a c = true.
Proof.
  destruct a as [x |], b as [y |], c as [z |]; simpl; try congruence.
  intros H1 H2. apply Z.leb_le in H1, H2. apply Z.leb_le. lia.
Qed.

#[local] Instance newerFirst_total : Total newerFirst.
Proof. intros a b. unfold newerFirst. apply dateLeb_total. Qed.

#[local] Instance newerFirst_trans : Transitive newerFirst.
Proof.
  intros a b c. unfold newerFirst. intros H1 H2.
  exact (dateLeb_trans _ _ _ H2 H1).
Qed.

Lemma NoDup_map_filter {A B} (f : A -> B) (p : A -> bool) (l : list A) :
  List.NoDup (List.map f l) -> List.NoDup (List.map f (List.filter p l)).
Proof.
  induction l as [| x l IH]; simpl; [trivial |].
  intros H. apply List.NoDup_cons_iff in H as [Hx Hl].
  destruct (p x); simpl; [| auto].
  apply List.NoDup_cons; [| auto].
  intros Hin. apply Hx. apply List.in_map_iff in Hin as (y & E & Hy).
  apply List.in_map_iff. exists y. split; [exact E |].
  now apply List.filter_In in Hy.
Qed.

(** What [findMany] returns: the matching rows, each once, newest first. *)
Lemma transaction_findMany_rows where_ s :
  exists rows,
    transaction_findMany where_ s = (Ok rows, s)
    /\ (forall r,
          In r rows <->
          transactions s !! listed_id r = Some (listed_row r)
          /\ matches where_ (listed_row r) = true
          /\ listed_account r
             = accounts s !! accountId (fields (listed_row r)))
    /\ List.NoDup (List.map listed_id rows)
    /\ StronglySorted notOlder rows.
Proof.
  unfold transaction_findMany. cbv zeta.
  set (found := List.filter (fun r => matches where_ (snd r))
                  (map_to_list (transactions s))).
  set (attach := fun r : string * Transaction =>
                   {| listed_id := fst r; listed_row := snd r;
                      listed_account :=
                        accounts s !! accountId (fields (snd r)) |}).
  pose proof (merge_sort_Permutation newerFirst found) as P.
  eexists. split; [reflexivity |]. split; [| split].
  - intros r. rewrite List.in_map_iff. split.
    + intros ([i t] & <- & Hin).
      apply (Permutation_in _ P) in Hin.
      apply List.filter_In in Hin as [Hin Hm].
      apply list_elem_of_In, elem_of_map_to_list in Hin.
      simpl. auto.
    + intros (Hs & Hm & Ha). exists (listed_id r, listed_row r). split.
      * unfold attach. simpl. rewrite <- Ha. now destruct r.
      * apply (Permutation_in _ (Permutation_sym P)).
        apply List.filter_In. split; [| exact Hm].
        now apply list_elem_of_In, elem_of_map_to_list.
  - rewrite List.map_map. simpl.
    apply (Permutation_NoDup (Permutation_map fst (Permutation_sym P))).
    apply NoDup_map_filter. apply NoDup_ListNoDup, NoDup_fst_map_to_list.
  - apply (StronglySorted_fmap attach newerFirst notOlder).
    + intros x y H. exact H.
    + apply Sorted_StronglySorted; [apply _ |]. apply Sorted_merge_sort. apply _.
Qed.

Lemma matches_whereOf u query t :
  query_userId query = None ->
  matches (whereOf u query) t
  = String.eqb (transaction_userId t) u && matches query t.
Proof.
  intros H. unfold matches, whereOf. simpl. rewrite H. simpl.
  now rewrite <- !andb_assoc.
Qed.

Lemma getUserTransactions_run uid query s :
  getUserTransactions uid query s =
  if noUser uid then (Error "Unauthorized", s) else
  match findUser (default "" uid) s with
  | None => (Error "User not found", s)
  | Some user => transaction_findMany (whereOf (user_id user) query) s
  end.
Proof.
  unfold getUserTransactions. destruct (noUser uid); [reflexivity |].
  unfold bind, user_findUnique.
  now destruct (findUser (default "" uid) s).
Qed.

(** X3: with no [userId] key in the query, [getUserTransactions] gives a
    signed-in user exactly the stored transactions that are theirs and pass
    the filters, each once and with its account, the newest first, and it
    writes nothing. *)
Theorem getUserTransactions_lists_own_rows uid user query s :
  noUser (Some uid) = false ->
  findUser uid s = Some user ->
  query_userId query = None ->
  exists rows,
    getUserTransactions (Some uid) query s = (Ok rows, s)
    /\ (forall r,
          In r rows <->
          transactions s !! listed_id r = Some (listed_row r)
          /\ transaction_userId (listed_row r) = user_id user
          /\ matches query (listed_row r) = true
          /\ listed_account r
             = accounts s !! accountId (fields (listed_row r)))
    /\ List.NoDup (List.map listed_id rows)
    /\ StronglySorted notOlder rows.
Proof.
  intros Hu Hf Hq. rewrite getUserTransactions_run, Hu.
  change (default "" (Some uid)) with uid. rewrite Hf.
  destruct (transaction_findMany_rows (whereOf (user_id user) query) s)
    as (rows & E & Hin & Hnd & Hs).
  exists rows. split; [exact E |]. split; [| split; assumption].
  intros r. rewrite Hin, (matches_whereOf _ _ _ Hq), andb_true_iff.
  rewrite String.eqb_eq. tauto.
Qed.

Lemma getUserTransactions_lists_own_rows_witness :
  exists rows,
    getUserTransactions (Some "clerk-1") emptyQuery store2 = (Ok rows, store2)
    /\ (forall r,
          In r rows <->
          transactions store2 !! listed_id r = Some (listed_row r)
          /\ transaction_userId (listed_row r) = "user-1"
          /\ matches emptyQuery (listed_row r) = true
          /\ listed_account r
             = accounts store2 !! accountId (fields (listed_row r)))
    /\ List.NoDup (List.map listed_id rows)
    /\ StronglySorted notOlder rows.
Proof.
  apply (getUserTransactions_lists_own_rows "clerk-1" asha emptyQuery store2);
  reflexivity.
Defined.

Lemma whereOf_withUserId u other query :
  whereOf u (withUserId (Some other) query) = withUserId (Some other) query.
Proof. reflexivity. Qed.

Lemma whereOf_own u query :
  whereOf u (withUserId None query) = withUserId (Some u) query.
Proof. reflexivity. Qed.

(** X4: a [userId] key in the query takes the place of the caller's own id
    (it is spread after it), so the caller is given exactly what that other
    user would be given for the same filters. *)
Theorem getUserTransactions_query_userId_wins uid user other otherUser query s :
  noUser (Some uid) = false ->
  findUser uid s = Some user ->
  noUser (Some other) = false ->
  findUser other s = Some otherUser ->
  getUserTransactions (Some uid)
    (withUserId (Some (user_id otherUser)) query) s
  = getUserTransactions (Some other) (withUserId None query) s.
Proof.
  intros Hu Hf Ho Hg. rewrite !getUserTransactions_run, Hu, Ho.
  change (default "" (Some uid)) with uid.
  change (default "" (Some other)) with other. rewrite Hf, Hg.
  now rewrite whereOf_withUserId, whereOf_own.
Qed.

(** Ravi, asking with Asha's id in the query, is given Asha's list. *)
Lemma getUserTransactions_query_userId_wins_witness :
  getUserTransactions (Some "clerk-2")
    (withUserId (Some "user-1") emptyQuery) store2
  = getUserTransactions (Some "clerk-1") (withUserId None emptyQuery) store2.
Proof.
  apply (getUserTransactions_query_userId_wins "clerk-2" ravi "clerk-1" asha);
  reflexivity.
Defined.

(** ** The list and the single read agree *)

(** X5: the transactions [getUserTransactions] lists for a user when asked
    without filters are the ones [getTransaction] gives that user: an id is
    listed with a row exactly when reading the id returns that row. *)
Theorem listed_rows_are_the_readable_rows uid user s :
  noUser (Some uid) = false ->
  findUser uid s = Some user ->
  exists rows,
    getUserTransactions (Some uid) emptyQuery s = (Ok rows, s)
    /\ forall id row,
         (exists r, In r rows /\ listed_id r = id /\ listed_row r = row)
         <-> getTransaction (Some uid) id s = (Ok row, s).
Proof.
  intros Hu Hf. rewrite getUserTransactions_run, Hu.
  change (default "" (Some uid)) with uid. rewrite Hf.
  destruct (transaction_findMany_rows (whereOf (user_id user) emptyQuery) s)
    as (rows & E & Hin & _ & _).
  exists rows. split; [exact E |]. intros id row.
  rewrite getTransaction_run, Hu.
  change (default "" (Some uid)) with uid. rewrite Hf. split.
  - intros (r & Hr & <- & <-). apply Hin in Hr as (Ht & Hm & _).
    rewrite matches_whereOf in Hm by reflexivity.
    apply andb_true_iff in Hm as [Ho _]. apply String.eqb_eq in Ho.
    now rewrite (findTransaction_owned _ _ _ _ Ht Ho).
  - destruct (findTransaction id (user_id user) s) as [t |] eqn:Ht;
      [| discriminate].
    intros [= ->]. apply findTransaction_Some in Ht as [Ht Ho].
    exists {| listed_id := id; listed_row := row;
              listed_account := accounts s !! accountId (fields row) |}.
    split; [| split; reflexivity]. apply Hin. cbn [listed_id listed_row
                                                   listed_account].
    split; [exact Ht |]. split; [| reflexivity].
    rewrite matches_whereOf by reflexivity.
    apply andb_true_iff. split; [now apply String.eqb_eq | reflexivity].
Qed.

Lemma listed_rows_are_the_readable_rows_witness :
  exists rows,
    getUserTransactions (Some "clerk-1") emptyQuery store2 = (Ok rows, store2)
    /\ forall id row,
         (exists r, In r rows /\ listed_id r = id /\ listed_row r = row)
         <-> getTransaction (Some "clerk-1") id store2 = (Ok row, store2).
Proof.
  apply (listed_rows_are_the_readable_rows "clerk-1" asha store2);
  reflexivity.
Defined.

(** ** Balances and the transactions behind them *)

Lemma ledger_step_comm account (z1 z2 : Transaction) (y : Z) :
  (if String.eqb (accountId (fields z1)) account
   then (if String.eqb (accountId (fields z2)) account
         then y + contribution z2 else y) + contribution z1
   else (if String.eqb (accountId (fields z2)) account
         then y + contribution z2 else y))
  = (if String.eqb (accountId (fields z2)) account
     then (if String.eqb (accountId (fields z1)) account
           then y + contribution z1 else y) + contribution z2
     else (if String.eqb (accountId (fields z1)) account
           then y + contribution z1 else y)).
Proof.
  destruct (String.eqb (accountId (fields z1)) account),
    (String.eqb (accountId (fields z2)) account); lia.
Qed.

(** What the row [t] counts for on [account]. *)
Lemma ledgerSum_fresh account id row s :
  transactions s !! id = None ->
  ledgerSum account (setTransaction id row s)
  = ledgerSum account s
    + (if String.eqb (accountId (fields row)) account
       then contribution row else 0).
Proof.
  intros H. unfold ledgerSum, setTransaction. simpl.
  rewrite map_fold_insert_L; [| intros; apply ledger_step_comm | exact H].
  destruct (String.eqb (accountId (fields row)) account); lia.
Qed.

Lemma ledgerSum_replace account id old row s :
  transactions s !! id = Some old ->
  ledgerSum account (setTransaction id row s)
  = ledgerSum account s
    - (if String.eqb (accountId (fields old)) account
       then contribution old else 0)
    + (if String.eqb (accountId (fields row)) account
       then contribution row else 0).
Proof.
  intros H. unfold ledgerSum, setTransaction. simpl.
  rewrite <- (insert_delete_eq (transactions s) id row).
  rewrite map_fold_insert_L;
    [| intros; apply ledger_step_comm | apply lookup_delete_eq].
  rewrite (map_fold_delete_L _ _ id old (transactions s));
    [| intros; apply ledger_step_comm | exact H].
  destruct (String.eqb (accountId (fields old)) account),
    (String.eqb (accountId (fields row)) account); lia.
Qed.

Lemma ledgerSum_setAccount account id row s :
  ledgerSum account (setAccount id row s) = ledgerSum account s.
Proof. reflexivity. Qed.

Lemma balanceOf_setAccount_ne account id row s :
  id <> account -> balanceOf account (setAccount id row s) = balanceOf account s.
Proof.
  intros H. unfold balanceOf, setAccount. simpl. now rewrite lookup_insert_ne.
Qed.

Lemma balanceOf_setTransaction account id row s :
  balanceOf account (setTransaction id row s) = balanceOf account s.
Proof. reflexivity. Qed.

Lemma balanceOf_Some account s acc :
  accounts s !! account = Some acc -> balanceOf account s = Some (balance acc).
Proof. intros H. unfold balanceOf. now rewrite H. Qed.

Lemma eqb_same (a : string) : String.eqb a a = true.
Proof. apply String.eqb_refl. Qed.

Lemma eqb_other (a b : string) : a <> b -> String.eqb a b = false.
Proof. intros H. now apply String.eqb_neq. Qed.

(** [createTransaction] moves the balance of an account exactly as it moves
    the sum of the signed amounts of the transactions on it. *)
Lemma createTransaction_drift uid decision newId data s account :
  drift account (snd (createTransaction uid decision newId data s))
  = drift account s.
Proof.
  rewrite createTransaction_run.
  destruct (noUser uid); [reflexivity |].
  destruct decision as [| []]; try reflexivity.
  destruct (findUser (default "" uid) s) as [user |]; [| reflexivity].
  destruct (findAccount (accountId data) (user_id user) s) as [acc |] eqn:Ha;
    [| reflexivity].
  apply findAccount_Some in Ha as [Ha _].
  destruct (transactions s !! newId) eqn:Hn; [reflexivity |].
  cbv zeta. simpl snd. unfold drift.
  rewrite ledgerSum_setAccount, (ledgerSum_fresh _ _ _ _ Hn). simpl fields.
  destruct (String.eqb_spec (accountId data) account) as [<- | Hne].
  - rewrite balanceOf_setAccount, (balanceOf_Some _ _ _ Ha). simpl.
    f_equal. unfold contribution. simpl. lia.
  - rewrite (balanceOf_setAccount_ne _ _ _ _ Hne), balanceOf_setTransaction.
    destruct (balanceOf account s); simpl; [f_equal; lia | reflexivity].
Qed.

(** So does an [updateTransaction] that leaves the transaction on its
    account. *)
Lemma updateTransaction_drift uid id data s account :
  (forall original,
      transactions s !! id = Some original ->
      accountId (fields original) = accountId data) ->
  drift account (snd (updateTransaction uid id data s)) = drift account s.
Proof.
  intros Hsame. rewrite updateTransaction_run.
  destruct (noUser uid); [reflexivity |].
  destruct (findUser (default "" uid) s) as [user |]; [| reflexivity].
  destruct (findTransaction id (user_id user) s) as [original |] eqn:Ht;
    [| reflexivity].
  apply findTransaction_Some in Ht as [Ht _].
  destruct (accounts s !! accountId data) as [acc |] eqn:Ha; [| reflexivity].
  cbv zeta. simpl snd. unfold drift.
  rewrite ledgerSum_setAccount, (ledgerSum_replace _ _ _ _ _ Ht). simpl fields.
  rewrite (Hsame _ Ht).
  destruct (String.eqb_spec (accountId data) account) as [<- | Hne].
  - rewrite balanceOf_setAccount, (balanceOf_Some _ _ _ Ha). simpl.
    f_equal. unfold contribution. simpl. lia.
  - rewrite (balanceOf_setAccount_ne _ _ _ _ Hne), balanceOf_setTransaction.
    destruct (balanceOf account s); simpl; [f_equal; lia | reflexivity].
Qed.



Lemma runCalls_cons c calls s :
  runCalls (c :: calls) s = runCalls calls (runCall c s).
Proof. reflexivity. Qed.



(** ** What a write touches, and how writes compose *)



Lemma setAccount_twice id row1 row2 s :
  setAccount id row2 (setAccount id row1 s) = setAccount id row2 s.
Proof. unfold setAccount. simpl. now rewrite insert_insert_eq. Qed.

Lemma setTransaction_twice id row1 row2 s :
  setTransaction id row2 (setTransaction id row1 s) = setTransaction id row2 s.
Proof. unfold setTransaction. simpl. now rewrite insert_insert_eq. Qed.

Lemma lookup_setAccount a acc s :
  accounts (setAccount a acc s) !! a = Some acc.
Proof. unfold setAccount. simpl. apply lookup_insert_eq. Qed.

Lemma findTransaction_written id row a acc u s :
  findTransaction id u (setAccount a acc (setTransaction id row s))
  = if String.eqb (transaction_userId row) u then Some row else None.
Proof.
  unfold findTransaction, setAccount, setTransaction. simpl.
  now rewrite lookup_insert_eq.
Qed.

Lemma setTransaction_setAccount i row a acc s :
  setTransaction i row (setAccount a acc s)
  = setAccount a acc (setTransaction i row s).
Proof. reflexivity. Qed.

Lemma update_after_update uid id data1 data2 s row1 s1 :
  updateTransaction uid id data1 s = (Ok row1, s1) ->
  accountId data2 = accountId data1 ->
  updateTransaction uid id data2 s1 = updateTransaction uid id data2 s.
Proof.
  intros H Hacc. revert H.
  rewrite (updateTransaction_run uid id data1 s),
    (updateTransaction_run uid id data2 s).
  destruct (noUser uid) eqn:Hu; [discriminate |].
  destruct (findUser (default "" uid) s) as [user |] eqn:Hf; [| discriminate].
  destruct (findTransaction id (user_id user) s) as [original |] eqn:Ht;
    [| discriminate].
  apply findTransaction_Some in Ht as [Ht Ho].
  rewrite Hacc.
  destruct (accounts s !! accountId data1) as [acc |] eqn:Ha; [| discriminate].
  cbv zeta. intros [= <- <-].
  rewrite updateTransaction_run, Hu.
  rewrite findUser_setAccount, findUser_setTransaction, Hf.
  rewrite findTransaction_written. cbn [transaction_userId].
  rewrite Ho, String.eqb_refl, Hacc, lookup_setAccount.
  cbv zeta. cbn [fields account_userId balance].
  rewrite setTransaction_setAccount, setAccount_twice, setTransaction_twice.
  do 3 f_equal. lia.
Qed.

Lemma update_after_create uid newId data1 data2 s row1 s1 :
  createTransaction uid Allowed newId data1 s = (Ok row1, s1) ->
  accountId data2 = accountId data1 ->
  updateTransaction uid newId data2 s1
  = createTransaction uid Allowed newId data2 s.
Proof.
  intros H Hacc. revert H.
  rewrite (createTransaction_run uid Allowed newId data1 s),
    (createTransaction_run uid Allowed newId data2 s).
  destruct (noUser uid) eqn:Hu; [discriminate |].
  destruct (findUser (default "" uid) s) as [user |] eqn:Hf; [| discriminate].
  rewrite Hacc.
  destruct (findAccount (accountId data1) (user_id user) s) as [acc |] eqn:Ha;
    [| discriminate].
  apply findAccount_Some in Ha as [Ha Ho].
  destruct (transactions s !! newId) eqn:Hn; [discriminate |].
  cbv zeta. intros [= <- <-].
  rewrite updateTransaction_run, Hu.
  rewrite findUser_setAccount, findUser_setTransaction, Hf.
  rewrite findTransaction_written. cbn [transaction_userId].
  rewrite String.eqb_refl, Hacc, lookup_setAccount.
  cbv zeta. cbn [fields account_userId balance].
  rewrite setTransaction_setAccount, setAccount_twice, setTransaction_twice.
  do 3 f_equal. lia.
Qed.



Lemma setTransaction_same id row s :
  transactions s !! id = Some row -> setTransaction id row s = s.
Proof.
  intros H. unfold setTransaction. rewrite (insert_id _ _ _ H). now destruct s.
Qed.

Lemma setAccount_same id row s :
  accounts s !! id = Some row -> setAccount id row s = s.
Proof.
  intros H. unfold setAccount. rewrite (insert_id _ _ _ H). now destruct s.
Qed.





(** ** A recurring transaction, month after month *)

Lemma monthsLater_S n d :
  monthsLater (S n) d = calculateNextRecurringDate (monthsLater n d) MONTHLY.
Proof. reflexivity. Qed.

Lemma same_fields_same_time a b :
  fieldsOf a = fieldsOf b -> TimeWithinDay a = TimeWithinDay b -> a = b.
Proof.
  unfold fieldsOf. intros [= Hy Hm Hd] Ht.
  destruct (fields_sound a) as (_ & _ & Ea).
  destruct (fields_sound b) as (_ & _ & Eb).
  rewrite <- (MakeDate_Day a), <- (MakeDate_Day b), Ea, Eb, Hy, Hm, Hd, Ht.
  reflexivity.
Qed.

Ltac triple :=
  repeat match goal with |- (_, _) = (_, _) => f_equal end; try reflexivity.

Lemma monthsLater_fields n t :
  - maxTime <= t ->
  t + (31 * Z.of_nat n + 366) * msPerDay <= maxTime ->
  DateFromTime t <= 28 ->
  exists t',
    monthsLater n (Some t) = Some t'
    /\ fieldsOf t'
       = (YearFromTime t + (MonthFromTime t + Z.of_nat n) / 12,
          (MonthFromTime t + Z.of_nat n) mod 12,
          DateFromTime t)
    /\ TimeWithinDay t' = TimeWithinDay t
    /\ t <= t' <= t + 31 * Z.of_nat n * msPerDay.
Proof.
  intros Lo Hi Hd.
  destruct (fields_sound t) as (Hm & _ & _).
  induction n as [| n IH].
  - exists t. repeat split; try lia.
    unfold fieldsOf. simpl Z.of_nat. rewrite Z.add_0_r.
    rewrite Z.div_small, Z.mod_small by lia. now rewrite Z.add_0_r.
  - destruct IH as (tn & En & Fn & Tn & Bn).
    { unfold msPerDay in *. lia. }
    destruct (monthly_next tn) as (t' & E' & S' & T' & F').
    { unfold msPerDay in *. lia. }
    unfold fieldsOf in Fn. injection Fn as Fy Fm Fd.
    rewrite Fy, Fm, Fd in F'. rewrite Fy, Fm in S'.
    set (y := YearFromTime t) in *. set (m := MonthFromTime t) in *.
    set (d := DateFromTime t) in *.
    exists t'. split; [| split; [| split]].
    + rewrite monthsLater_S, En. exact E'.
    + rewrite F'. clear F' S' E'.
      destruct (Z.eqb_spec ((m + Z.of_nat n) mod 12) 11) as [E11 | N11].
      * pose proof (DaysInMonth_range (y + (m + Z.of_nat n) / 12 + 1) 0) as R.
        destruct (Z.leb_spec d
                    (DaysInMonth (y + (m + Z.of_nat n) / 12 + 1) 0)); [| lia].
        triple; Z.div_mod_to_equations; lia.
      * pose proof (DaysInMonth_range (y + (m + Z.of_nat n) / 12)
                      ((m + Z.of_nat n) mod 12 + 1)) as R.
        destruct (Z.leb_spec d
                    (DaysInMonth (y + (m + Z.of_nat n) / 12)
                       ((m + Z.of_nat n) mod 12 + 1))); [| lia].
        triple; Z.div_mod_to_equations; lia.
    + now rewrite T'.
    + pose proof (DaysInMonth_range (y + (m + Z.of_nat n) / 12)
                    ((m + Z.of_nat n) mod 12)) as R.
      unfold msPerDay in *. nia.
Qed.





(** ** Signing in again, and signing in under another identity *)

Lemma find_updateFirst p f (l : list User) u :
  List.find p l = Some u -> p (f u) = true ->
  List.find p (updateFirst p f l) = Some (f u).
Proof.
  intros H Hp. induction l as [| w r IH]; [discriminate |].
  simpl in *. destruct (p w) eqn:E.
  - injection H as ->. simpl. now rewrite Hp.
  - simpl. rewrite E. now apply IH.
Qed.

Lemma updateFirst_fixed p f (l : list User) u :
  List.find p l = Some u -> f u = u -> updateFirst p f l = l.
Proof.
  intros H Hf. induction l as [| w r IH]; [reflexivity |].
  simpl in *. destruct (p w).
  - injection H as ->. now rewrite Hf.
  - f_equal. now apply IH.
Qed.

Lemma In_updateFirst p f (l : list User) w :
  In w (updateFirst p f l) ->
  In w l \/ exists u, List.find p l = Some u /\ w = f u.
Proof.
  induction l as [| v r IH]; [intros [] |].
  simpl. destruct (p v).
  - intros [<- | H]; [right; now exists v | left; now right].
  - intros [<- | H]; [left; now left |].
    destruct (IH H) as [Hin | Hex]; [left; now right | now right].
Qed.

(** With [clerkUserId] unique, the rows other than the rewritten one keep a
    [clerkUserId] that is not the one the rewritten row had. *)
Lemma In_updateFirst_unique p f (l : list User) old w :
  NoDup (List.map clerkUserId l) ->
  List.find p l = Some old ->
  In w (updateFirst p f l) ->
  w = f old \/ clerkUserId w <> clerkUserId old.
Proof.
  induction l as [| v r IH]; [discriminate |].
  simpl. intros N. apply NoDup_ListNoDup, List.NoDup_cons_iff in N as [Hv Nr].
  apply NoDup_ListNoDup in Nr.
  destruct (p v).
  - intros [= ->] [<- | Hw]; [now left | right].
    intros E. apply Hv. rewrite <- E. now apply List.in_map.
  - intros Hf [<- | Hw]; [right | now apply IH].
    intros E. apply Hv. rewrite E.
    apply List.in_map. now apply List.find_some in Hf.
Qed.

Lemma updateFirst_length p f (l : list User) :
  length (updateFirst p f l) = length l.
Proof.
  induction l as [| v r IH]; [reflexivity |].
  simpl. destruct (p v); simpl; [reflexivity | now rewrite IH].
Qed.

Lemma setUsers_same s : setUsers (users s) s = s.
Proof. now destruct s. Qed.

Lemma find_app_None {A} p (l : list A) x :
  List.find p l = None -> List.find p (l ++ [x]) = if p x then Some x else None.
Proof.
  induction l as [| v r IH]; [reflexivity |].
  simpl. destruct (p v); [discriminate | exact IH].
Qed.

Lemma find_is_first {A} p (l : list A) x :
  In x l -> p x = true -> exists y, List.find p l = Some y.
Proof.
  intros Hin Hp. destruct (List.find p l) as [y |] eqn:E; [now exists y |].
  apply (List.find_none _ _ E) in Hin. congruence.
Qed.

Lemma existsb_false {A} (p : A -> bool) l :
  (forall x, In x l -> p x = false) -> List.existsb p l = false.
Proof.
  intros H. destruct (List.existsb p l) eqn:E; [| reflexivity].
  apply List.existsb_exists in E as (x & Hx & Px).
  rewrite (H x Hx) in Px. discriminate.
Qed.

Lemma existsb_false_In {A} (p : A -> bool) l x :
  List.existsb p l = false -> In x l -> p x = false.
Proof.
  intros H Hx. destruct (p x) eqn:E; [| reflexivity].
  rewrite <- H. symmetry. apply List.existsb_exists. now exists x.
Qed.

(** An upsert that found a row with the email rewrote the first such row;
    no other user had the [clerkUserId] it wrote. *)
Lemma user_upsert_found mail update create s old row s1 :
  List.find (fun w => String.eqb (email w) mail) (users s) = Some old ->
  user_upsert mail update create s = (Ok row, s1) ->
  row = update old
  /\ s1 = setUsers
            (updateFirst (fun w => String.eqb (email w) mail) update (users s)) s
  /\ forall w, In w (users s) -> clerkUserId w = clerkUserId (update old) ->
               user_id w = user_id old.
Proof.
  intros Hfind. unfold user_upsert. rewrite Hfind. cbv zeta.
  destruct (List.existsb _ (users s)) eqn:X; [discriminate |].
  intros [= <- <-]. repeat split. intros w Hw Hc.
  apply (existsb_false_In _ _ _ X) in Hw. cbv beta in Hw.
  apply andb_false_iff in Hw as [Hw | Hw].
  - apply String.eqb_neq in Hw. contradiction.
  - now apply negb_false_iff, String.eqb_eq in Hw.
Qed.

(** An upsert that found no row with the email added [create]; no row had
    its [clerkUserId] or its id. *)
Lemma user_upsert_new mail update create s row s1 :
  List.find (fun w => String.eqb (email w) mail) (users s) = None ->
  user_upsert mail update create s = (Ok row, s1) ->
  row = create
  /\ s1 = setUsers (users s ++ [create]) s
  /\ forall w, In w (users s) -> clerkUserId w <> clerkUserId create.
Proof.
  intros Hfind. unfold user_upsert. rewrite Hfind. cbv zeta.
  destruct (List.existsb _ (users s)) eqn:X; [discriminate |].
  intros [= <- <-]. repeat split. intros w Hw Hc.
  apply (existsb_false_In _ _ _ X) in Hw. cbv beta in Hw.
  apply orb_false_iff in Hw as [Hw _].
  apply String.eqb_neq in Hw. contradiction.
Qed.

(** The same upsert, once more, returns the same row and writes nothing
    new. *)
Lemma user_upsert_again mail update create create' s row s1 :
  (forall w, email (update w) = email w) ->
  (forall w, user_id (update w) = user_id w) ->
  (forall w, clerkUserId (update w) = clerkUserId create) ->
  (forall w, update (update w) = update w) ->
  update create = create ->
  email create = mail ->
  user_upsert mail update create s = (Ok row, s1) ->
  user_upsert mail update create' s1 = (Ok row, s1).
Proof.
  intros He Hi Hc Hu Hcr Hm H.
  set (p := fun w : User => String.eqb (email w) mail).
  destruct (List.find p (users s)) as [old |] eqn:Hfind.
  - destruct (user_upsert_found _ _ _ _ _ _ _ Hfind H) as (-> & -> & Huniq).
    assert (P : p (update old) = true).
    { unfold p. rewrite He. now apply List.find_some in Hfind. }
    pose proof (find_updateFirst p update _ _ Hfind P) as F.
    unfold user_upsert. cbn [users setUsers]. fold p. rewrite F. cbv zeta.
    rewrite existsb_false.
    + rewrite (updateFirst_fixed p update _ _ F (Hu old)), Hu.
      reflexivity.
    + intros w Hw. apply andb_false_iff.
      destruct (String.eqb_spec (clerkUserId w) (clerkUserId (update (update old))))
        as [E |]; [right | now left].
      apply negb_false_iff, String.eqb_eq. rewrite Hi.
      apply In_updateFirst in Hw as [Hw | (o & Ho & ->)].
      * apply Huniq; [exact Hw |]. now rewrite E, Hu.
      * rewrite Hfind in Ho. injection Ho as <-. apply Hi.
  - destruct (user_upsert_new _ _ _ _ _ _ Hfind H) as (-> & -> & Huniq).
    assert (F : List.find p (users s ++ [create]) = Some create).
    { rewrite (find_app_None _ _ _ Hfind). unfold p.
      now rewrite Hm, String.eqb_refl. }
    unfold user_upsert. cbn [users setUsers]. fold p. rewrite F. cbv zeta.
    rewrite existsb_false.
    + rewrite (updateFirst_fixed p update _ _ F Hcr), Hcr. reflexivity.
    + intros w Hw. apply andb_false_iff. rewrite Hcr.
      apply List.in_app_or in Hw as [Hw | [<- | []]].
      * left. apply String.eqb_neq. now apply Huniq.
      * right. now rewrite String.eqb_refl.
Qed.

(** X14: signing in again changes nothing.  After a [checkUser] call that
    returned a row, a further call for the same identity returns that very
    row and leaves the store exactly as it is. *)
Theorem checkUser_again_changes_nothing u mail rest newId newId' s row s1 :
  emailAddresses u = mail :: rest ->
  checkUser (Some u) newId s = (Ok (Some row), s1) ->
  checkUser (Some u) newId' s1 = (Ok (Some row), s1).
Proof.
  intros E. rewrite !(checkUser_run _ _ _ _ _ E). cbv zeta.
  destruct (user_upsert _ _ _ s) as [[r | e] s0] eqn:U; [| discriminate].
  intros [= <- <-].
  eapply user_upsert_again in U; try reflexivity.
  rewrite U. reflexivity.
Qed.

Lemma checkUser_again_changes_nothing_witness :
  checkUser (Some ashaAtClerk) "user-4"
    (snd (checkUser (Some ashaAtClerk) "user-3" store0))
  = (Ok (Some {| user_id := "user-1"; clerkUserId := "clerk-1";
                 email := "asha@example.com"; name := "Asha";
                 imageUrl := "a.png" |}),
     snd (checkUser (Some ashaAtClerk) "user-3" store0)).
Proof.
  apply (checkUser_again_changes_nothing ashaAtClerk "asha@example.com" []
           "user-3" "user-4" store0);
  [reflexivity | vm_compute; reflexivity].
Defined.

(** X15: the row follows the email, not the identity.  When a row with the
    identity's first email exists, a [checkUser] call that returns, returns
    that row's id under the new identity and adds no row; from then on the
    new identity is found as that user and can write to the accounts the
    user owns; and the identity the row had before, when it is another one,
    is no longer found. *)
Theorem checkUser_row_follows_email u mail rest newId s old row s1 :
  emailAddresses u = mail :: rest ->
  List.find (fun w => String.eqb (email w) mail) (users s) = Some old ->
  checkUser (Some u) newId s = (Ok (Some row), s1) ->
  user_id row = user_id old
  /\ clerkUserId row = clerk_id u
  /\ length (users s1) = length (users s)
  /\ (exists w, findUser (clerk_id u) s1 = Some w /\ user_id w = user_id old)
  /\ (forall tx data acc,
         clerk_id u <> "" ->
         accounts s !! accountId data = Some acc ->
         account_userId acc = user_id old ->
         transactions s !! tx = None ->
         exists t s2,
           createTransaction (Some (clerk_id u)) Allowed tx data s1
           = (Ok t, s2)
           /\ transaction_userId t = user_id old)
  /\ (clerkUserId old <> clerk_id u ->
      NoDup (List.map clerkUserId (users s)) ->
      findUser (clerkUserId old) s1 = None).
Proof.
  intros E Hfind. rewrite (checkUser_run _ _ _ _ _ E). cbv zeta.
  destruct (user_upsert _ _ _ s) as [[r | e] s0] eqn:U; [| discriminate].
  intros [= <- <-].
  destruct (user_upsert_found _ _ _ _ _ _ _ Hfind U) as (-> & -> & Huniq).
  clear U. cbn [user_id clerkUserId] in *.
  set (p := fun w : User => String.eqb (email w) mail) in *.
  set (f := fun w : User => Build_User (user_id w) _ _ _ _) in *.
  assert (F : exists w, findUser (clerk_id u)
                          (setUsers (updateFirst p f (users s)) s) = Some w
                        /\ user_id w = user_id old).
  { unfold findUser. cbn [users setUsers].
    destruct (find_is_first
                (fun w => String.eqb (clerkUserId w) (clerk_id u))
                (updateFirst p f (users s))
                _ (updateFirst_In _ _ _ _ Hfind)) as (w & Hw).
    { apply String.eqb_refl. }
    exists w. split; [exact Hw |].
    apply List.find_some in Hw as [Hin Hc]. apply String.eqb_eq in Hc.
    apply In_updateFirst in Hin as [Hin | (o & Ho & ->)].
    - now apply Huniq.
    - rewrite Hfind in Ho. now injection Ho as <-. }
  split; [reflexivity |]. split; [reflexivity |].
  split; [cbn [users setUsers]; apply updateFirst_length |].
  split; [exact F |]. split.
  - intros tx data acc Hne Ha Ho Hfree.
    destruct F as (w & Hw & Hid).
    rewrite createTransaction_run.
    assert (N : noUser (Some (clerk_id u)) = false).
    { simpl. destruct (clerk_id u); [congruence | reflexivity]. }
    rewrite N. change (default "" (Some (clerk_id u))) with (clerk_id u).
    rewrite Hw. unfold findAccount. cbn [accounts transactions setUsers].
    rewrite Ha, Hid, Ho, String.eqb_refl, Hfree. cbv zeta.
    eexists _, _. split; [reflexivity | reflexivity].
  - intros Hne Hone. unfold findUser. cbn [users setUsers].
    destruct (List.find _ (updateFirst p f (users s))) as [w |] eqn:Hw;
      [| reflexivity].
    exfalso. apply List.find_some in Hw as [Hin Hc]. apply String.eqb_eq in Hc.
    destruct (In_updateFirst_unique p f _ old w Hone Hfind Hin) as [-> | Hd].
    + apply Hne. symmetry. exact Hc.
    + contradiction.
Qed.

(** Another identity signs in with Asha's email. *)
Lemma checkUser_row_follows_email_witness :
  (exists w,
      findUser "clerk-7" (snd (checkUser (Some raviAtClerk) "user-3" store0))
      = Some w
      /\ user_id w = "user-1")
  /\ (exists t s2,
         createTransaction (Some "clerk-7") Allowed "tx-1"
           (groceries EXPENSE 5000)
           (snd (checkUser (Some raviAtClerk) "user-3" store0))
         = (Ok t, s2)
         /\ transaction_userId t = "user-1")
  /\ findUser "clerk-1" (snd (checkUser (Some raviAtClerk) "user-3" store0))
     = None.
Proof.
  destruct (checkUser_row_follows_email raviAtClerk "asha@example.com" []
              "user-3" store0 asha
              {| user_id := "user-1"; clerkUserId := "clerk-7";
                 email := "asha@example.com"; name := "Ravi";
                 imageUrl := "r.png" |}
              (snd (checkUser (Some raviAtClerk) "user-3" store0)))
    as (_ & _ & _ & F & C & O);
    [reflexivity | reflexivity | vm_compute; reflexivity |].
  split; [exact F |]. split.
  - apply (C "tx-1" (groceries EXPENSE 5000)
             {| account_userId := "user-1"; balance := 50000 |});
      [discriminate | reflexivity | reflexivity | reflexivity].
  - apply O; [discriminate |].
    apply (bool_decide_unpack _). vm_compute. reflexivity.
Defined.

(** ** What a scan can give *)

Lemma nullish_defined v d :
  d <> JUndefined -> d <> JNull ->
  nullish v d <> JUndefined /\ nullish v d <> JNull.
Proof. intros H1 H2. destruct v; simpl; split; congruence. Qed.

Lemma receiptOf_defined parsed r :
  receiptOf parsed = Some r ->
  (receipt_description r <> JUndefined /\ receipt_description r <> JNull)
  /\ (receipt_merchantName r <> JUndefined /\ receipt_merchantName r <> JNull)
  /\ (receipt_category r <> JUndefined /\ receipt_category r <> JNull).
Proof.
  unfold receiptOf.
  destruct (getProp parsed "amount") as [a |]; [| discriminate].
  destruct (getProp parsed "date") as [d |]; [| discriminate].
  destruct (getProp parsed "description") as [ds |]; [| discriminate].
  destruct (getProp parsed "merchantName") as [m |]; [| discriminate].
  destruct (getProp parsed "category") as [c |]; [| discriminate].
  simpl. intros [= <-]. cbn [receipt_description receipt_merchantName
                              receipt_category].
  repeat split; apply nullish_defined; discriminate.
Qed.

(** X16: whatever the model answers, [scanReceipt] ends in one of three
    ways: the empty result, which it gives only for an answer that cleans to
    the empty text or to [{}]; a receipt whose description, merchant name
    and category are never [null] or [undefined]; or the one error "Failed
    to scan receipt", no other message ever leaving the function. *)
Theorem scanReceipt_outcomes generateContent file :
  match scanReceipt generateContent file with
  | Ok EmptyResult =>
      exists text,
        generateContent (inlineDataOf file) prompt = Some text
        /\ (cleanText text = "" \/ cleanText text = "{}")
  | Ok (Scanned r) =>
      (exists text parsed,
          generateContent (inlineDataOf file) prompt = Some text
          /\ JSON_parse (cleanText text) = Some parsed
          /\ receiptOf parsed = Some r)
      /\ (receipt_description r <> JUndefined
          /\ receipt_description r <> JNull)
      /\ (receipt_merchantName r <> JUndefined
          /\ receipt_merchantName r <> JNull)
      /\ (receipt_category r <> JUndefined /\ receipt_category r <> JNull)
  | Error e => e = scanFailed
  end.
Proof.
  unfold scanReceipt.
  destruct (generateContent (inlineDataOf file) prompt) as [text |];
    [| reflexivity].
  cbv zeta.
  destruct (isEmpty (cleanText text)) eqn:E1.
  - exists text. split; [reflexivity |]. left.
    destruct (cleanText text); [reflexivity | discriminate].
  - destruct (String.eqb_spec (cleanText text) "{}") as [E2 | E2]; simpl.
    + exists text. split; [reflexivity |]. now right.
    + destruct (JSON_parse (cleanText text)) as [parsed |] eqn:P;
        [| reflexivity].
      destruct (receiptOf parsed) as [r |] eqn:R; [| reflexivity].
      split; [exists text, parsed; repeat split; assumption |].
      exact (receiptOf_defined _ _ R).
Qed.

(** X17: a file without a type is sent, and so scanned, as a JPEG: the
    request never has an empty [mimeType], and a file with the same bytes
    that says "image/jpeg" gets the same outcome. *)
Theorem scanReceipt_untyped_file_is_jpeg generateContent file1 file2 :
  file_type file1 = "" ->
  file_type file2 = "image/jpeg" ->
  file_bytes file1 = file_bytes file2 ->
  mimeType (inlineDataOf file1) = "image/jpeg"
  /\ inlineDataOf file1 = inlineDataOf file2
  /\ scanReceipt generateContent file1 = scanReceipt generateContent file2.
Proof.
  intros T1 T2 B.
  assert (E : inlineDataOf file1 = inlineDataOf file2).
  { unfold inlineDataOf. now rewrite T1, T2, B. }
  split; [unfold inlineDataOf; now rewrite T1 |].
  split; [exact E |]. unfold scanReceipt. now rewrite E.
Qed.

Lemma scanReceipt_untyped_file_is_jpeg_witness :
  scanReceipt (fun request _ => Some (mimeType request))
    {| file_type := ""; file_bytes := [Byte.xff; Byte.xd8] |}
  = scanReceipt (fun request _ => Some (mimeType request))
      {| file_type := "image/jpeg"; file_bytes := [Byte.xff; Byte.xd8] |}.
Proof.
  apply (scanReceipt_untyped_file_is_jpeg
           (fun request _ => Some (mimeType request))
           {| file_type := ""; file_bytes := [Byte.xff; Byte.xd8] |}
           {| file_type := "image/jpeg"; file_bytes := [Byte.xff; Byte.xd8] |});
  reflexivity.
Defined.

(** ** Code fences are gone after cleaning *)

Lemma removeFences_unmatched c s :
  fenceAtStart (String c s) = false ->
  removeFences (String c s) = String c (removeFences s).
Proof.
  destruct s as [| c2 [| c3 s3]]; try reflexivity.
  cbn [fenceAtStart]. intros E.
  change (removeFences (String c (String c2 (String c3 s3))))
    with (if isChar "`" c && isChar "`" c2 && isChar "`" c3
          then match s3 with
               | String j (String s_ (String o (String n s7))) =>
                   if isChar "j" j && isChar "s" s_ && isChar "o" o
                      && isChar "n" n
                   then removeFences s7 else removeFences s3
               | _ => removeFences s3
               end
          else String c (removeFences (String c2 (String c3 s3)))).
  now rewrite E.
Qed.

Lemma removeFences_matched s :
  fenceAtStart s = true ->
  exists r, (String.length r < String.length s)%nat
            /\ removeFences s = removeFences r.
Proof.
  destruct s as [| c1 [| c2 [| c3 s3]]]; try discriminate.
  cbn [fenceAtStart]. intros E.
  change (removeFences (String c1 (String c2 (String c3 s3))))
    with (if isChar "`" c1 && isChar "`" c2 && isChar "`" c3
          then match s3 with
               | String j (String s_ (String o (String n s7))) =>
                   if isChar "j" j && isChar "s" s_ && isChar "o" o
                      && isChar "n" n
                   then removeFences s7 else removeFences s3
               | _ => removeFences s3
               end
          else String c1 (removeFences (String c2 (String c3 s3)))).
  rewrite E.
  destruct s3 as [| j [| s_ [| o [| n s7]]]];
    try (eexists; split; [| reflexivity]; simpl; lia).
  destruct (isChar "j" j && isChar "s" s_ && isChar "o" o && isChar "n" n);
    eexists; (split; [| reflexivity]); simpl; lia.
Qed.

Lemma fenceAtStart_head c s :
  fenceAtStart (String c s) = true -> isChar "`" c = true.
Proof.
  destruct s as [| c2 [| c3 s3]]; try discriminate.
  cbn [fenceAtStart]. intros E.
  now apply andb_true_iff in E as [E _]; apply andb_true_iff in E as [E _].
Qed.

(** What is left begins with a backtick only if the text did. *)
Lemma removeFences_head s c r :
  removeFences s = String c r -> isChar "`" c = true ->
  exists c' r', s = String c' r' /\ isChar "`" c' = true.
Proof.
  destruct s as [| a s]; [discriminate |].
  destruct (fenceAtStart (String a s)) eqn:E.
  - intros _ _. exists a, s. split; [reflexivity |].
    now apply fenceAtStart_head in E.
  - rewrite (removeFences_unmatched _ _ E). intros [= -> _] H.
    now exists c, s.
Qed.

Lemma removeFences_no_fence_upto n s :
  (String.length s <= n)%nat -> hasFence (removeFences s) = false.
Proof.
  revert s. induction n as [| n IH]; intros s L.
  - destruct s; [reflexivity | simpl in L; lia].
  - destruct s as [| c1 s1]; [reflexivity |].
    destruct (fenceAtStart (String c1 s1)) eqn:E.
    + destruct (removeFences_matched _ E) as (r & Lr & ->).
      apply IH. simpl in *. lia.
    + rewrite (removeFences_unmatched _ _ E).
      assert (H1 : hasFence (removeFences s1) = false)
        by (apply IH; simpl in L; lia).
      cbn [hasFence]. rewrite H1, orb_false_r.
      destruct (removeFences s1) as [| d1 [| d2 t3]] eqn:T; try reflexivity.
      cbn [fenceAtStart].
      destruct (isChar "`" c1) eqn:B1; [| reflexivity].
      destruct (isChar "`" d1) eqn:B2; [| reflexivity].
      destruct (isChar "`" d2) eqn:B3; [| reflexivity].
      exfalso.
      destruct (removeFences_head _ _ _ T B2) as (c2 & r2 & -> & C2).
      destruct (fenceAtStart (String c2 r2)) eqn:F.
      * destruct r2 as [| c3 [| c4 s4]]; try discriminate.
        cbn [fenceAtStart] in F, E.
        apply andb_true_iff in F as [F _]. apply andb_true_iff in F as [_ C3].
        rewrite B1, C2, C3 in E. discriminate.
      * rewrite (removeFences_unmatched _ _ F) in T.
        injection T as _ T.
        destruct (removeFences_head _ _ _ T B3) as (c3 & r3 & -> & C3).
        cbn [fenceAtStart] in E. rewrite B1, C2, C3 in E. discriminate.
Qed.

Lemma removeFences_without_fence s :
  hasFence s = false -> removeFences s = s.
Proof.
  induction s as [| c r IH]; [reflexivity |].
  cbn [hasFence]. intros H. apply orb_false_iff in H as [F H].
  rewrite (removeFences_unmatched _ _ F). now rewrite IH.
Qed.

Lemma hasFence_after a t : hasFence t = true -> hasFence (a ++ t) = true.
Proof.
  intros H. induction a as [| c a IH]; [exact H |].
  rewrite append_cons. cbn [hasFence]. rewrite IH. apply orb_true_r.
Qed.

Lemma hasFence_before t b : hasFence t = true -> hasFence (t ++ b) = true.
Proof.
  induction t as [| c t IH]; [discriminate |].
  cbn [hasFence]. intros H. rewrite append_cons. cbn [hasFence].
  apply orb_true_iff in H as [H | H].
  - destruct t as [| c2 [| c3 r]]; try discriminate.
    rewrite !append_cons. cbn [fenceAtStart] in *. now rewrite H.
  - rewrite (IH H). apply orb_true_r.
Qed.

Lemma trimStart_suffix_upto n s :
  (String.length s <= n)%nat -> exists a, s = a ++ trimStart s.
Proof.
  revert s. induction n as [| n IH]; intros s L.
  - destruct s; [now exists "" | simpl in L; lia].
  - destruct s as [| c1 s1]; [now exists "" |].
    change (trimStart (String c1 s1))
      with (if ws1 c1 then trimStart s1
            else match s1 with
                 | EmptyString => String c1 s1
                 | String c2 s2 =>
                     if ws2 c1 c2 then trimStart s2
                     else match s2 with
                          | EmptyString => String c1 s1
                          | String c3 s3 =>
                              if ws3 c1 c2 c3 then trimStart s3
                              else String c1 s1
                          end
                 end).
    destruct (ws1 c1).
    + destruct (IH s1) as (a & Ha); [simpl in L; lia |].
      exists (String c1 a). rewrite append_cons. now rewrite <- Ha.
    + destruct s1 as [| c2 s2]; [now exists "" |].
      destruct (ws2 c1 c2).
      * destruct (IH s2) as (a & Ha); [simpl in L; lia |].
        exists (String c1 (String c2 a)). rewrite !append_cons.
        now rewrite <- Ha.
      * destruct s2 as [| c3 s3]; [now exists "" |].
        destruct (ws3 c1 c2 c3); [| now exists ""].
        destruct (IH s3) as (a & Ha); [simpl in L; lia |].
        exists (String c1 (String c2 (String c3 a))). rewrite !append_cons.
        now rewrite <- Ha.
Qed.

Lemma trimStart_rev_suffix_upto n s :
  (String.length s <= n)%nat -> exists a, s = a ++ trimStart_rev s.
Proof.
  revert s. induction n as [| n IH]; intros s L.
  - destruct s; [now exists "" | simpl in L; lia].
  - destruct s as [| c1 s1]; [now exists "" |].
    change (trimStart_rev (String c1 s1))
      with (if ws1 c1 then trimStart_rev s1
            else match s1 with
                 | EmptyString => String c1 s1
                 | String c2 s2 =>
                     if ws2 c2 c1 then trimStart_rev s2
                     else match s2 with
                          | EmptyString => String c1 s1
                          | String c3 s3 =>
                              if ws3 c3 c2 c1 then trimStart_rev s3
                              else String c1 s1
                          end
                 end).
    destruct (ws1 c1).
    + destruct (IH s1) as (a & Ha); [simpl in L; lia |].
      exists (String c1 a). rewrite append_cons. now rewrite <- Ha.
    + destruct s1 as [| c2 s2]; [now exists "" |].
      destruct (ws2 c2 c1).
      * destruct (IH s2) as (a & Ha); [simpl in L; lia |].
        exists (String c1 (String c2 a)). rewrite !append_cons.
        now rewrite <- Ha.
      * destruct s2 as [| c3 s3]; [now exists "" |].
        destruct (ws3 c3 c2 c1); [| now exists ""].
        destruct (IH s3) as (a & Ha); [simpl in L; lia |].
        exists (String c1 (String c2 (String c3 a))). rewrite !append_cons.
        now rewrite <- Ha.
Qed.

Lemma append_empty (s : string) : s ++ "" = s.
Proof. induction s as [| c s IH]; [reflexivity |]. now rewrite append_cons, IH. Qed.

Lemma rev_onto_acc s acc : rev_onto s acc = rev_string s ++ acc.
Proof.
  unfold rev_string. revert acc. induction s as [| c s IH]; intros acc.
  - reflexivity.
  - simpl. rewrite (IH (String c acc)), (IH (String c "")).
    now rewrite <- append_assoc.
Qed.

Lemma rev_string_app s t : rev_string (s ++ t) = rev_string t ++ rev_string s.
Proof.
  unfold rev_string at 1. rewrite rev_onto_app. apply rev_onto_acc.
Qed.

Lemma rev_string_twice s : rev_string (rev_string s) = s.
Proof.
  induction s as [| c s IH]; [reflexivity |].
  unfold rev_string at 2. simpl. rewrite rev_onto_acc, rev_string_app, IH.
  reflexivity.
Qed.

(** [trim] takes characters off the two ends and nothing else. *)
Lemma trim_middle s : exists a b, s = a ++ trim s ++ b.
Proof.
  unfold trim, trimEnd.
  destruct (trimStart_suffix_upto _ s (le_n _)) as (a & Ha).
  destruct (trimStart_rev_suffix_upto _ (rev_string (trimStart s)) (le_n _))
    as (b & Hb).
  exists a, (rev_string b).
  rewrite <- rev_string_app, <- Hb, rev_string_twice. exact Ha.
Qed.

(** X18: the text [scanReceipt] hands to [JSON.parse] never holds a
    code-fence marker: the replacement leaves no three backticks in a row,
    however the backticks of the answer are arranged, and trimming brings
    none back; so removing the fences again changes nothing. *)
Theorem cleanText_has_no_fence text :
  hasFence (removeFences text) = false
  /\ hasFence (cleanText text) = false
  /\ removeFences (removeFences text) = removeFences text
  /\ removeFences (cleanText text) = cleanText text.
Proof.
  assert (H : hasFence (removeFences text) = false)
    by exact (removeFences_no_fence_upto _ text (le_n _)).
  assert (C : hasFence (cleanText text) = false).
  { unfold cleanText.
    destruct (trim_middle (removeFences text)) as (a & b & E).
    destruct (hasFence (trim (removeFences text))) eqn:F; [| reflexivity].
    rewrite E in H. rewrite hasFence_after in H; [discriminate |].
    now apply hasFence_before. }
  repeat split; try assumption; now apply removeFences_without_fence.
Qed.
